(** * LiveStream: registry, status triple and client table of KonomiTV

    A shallow embedding of [server/app/models/LiveStream.py].  Python objects
    live in an explicit store: instances of [LiveStream] are addressed by
    their position in [heap], the class attribute
    [LiveStreamEntity.livestreams] is an insertion-ordered dictionary, and the
    class attribute [LiveStream.clients] is a single list object.  Methods are
    computations in a state-and-exception monad: what a method changed before
    it raised stays changed, as in Python. *)

From Stdlib Require Import String Ascii Strings.Byte ZArith Bool Lia.
From stdpp Require Import base list.

Local Open Scope Z_scope.
Local Open Scope nat_scope.

(** A clock for the examples: the [n]-th reading is [n]. *)
Definition counting_clock (n : nat) : nat := n.

(** ** Strings *)

Module Str.

(** [f'{a}-{b}'] *)
Definition hyphenate (a b : string) : string :=
  String.append a (String "-"%char b).
#[global] Arguments hyphenate : simpl never.

(** [s.split(sep)] for a one-character separator: never returns the empty
    list, and a string with [n] separators yields [n + 1] parts. *)
Fixpoint split (sep : ascii) (s : string) : list string :=
  match s with
  | EmptyString => [EmptyString]
  | String c rest =>
      if Ascii.eqb c sep then EmptyString :: split sep rest
      else match split sep rest with
           | [] => [String c EmptyString]
           | part :: parts => String c part :: parts
           end
  end.

End Str.

(** ** Outcomes of a call *)

(** The exceptions the module can raise. *)
Inductive PyExn : Set :=
| IndexError        (* list index out of range *)
| AttributeError    (* attribute missing, e.g. [None.get] *)
| ValueError        (* wrong number of values to unpack *)
| KeyError          (* key missing from a dictionary *)
| TypeError
| RuntimeError.     (* dictionary changed size during iteration *)

Definition exn_eqb (a b : PyExn) : bool :=
  match a, b with
  | IndexError, IndexError | AttributeError, AttributeError
  | ValueError, ValueError | KeyError, KeyError
  | TypeError, TypeError | RuntimeError, RuntimeError => true
  | _, _ => false
  end.

(** A call returns a value, raises, or waits forever ([queue.Queue.get] on an
    empty queue when nobody else runs). *)
Inductive Outcome (A : Type) : Type :=
| Returns (a : A)
| Raises (e : PyExn)
| Blocks.
Arguments Returns {A} a.
Arguments Raises {A} e.
Arguments Blocks {A}.

(** ** Python lists indexed by an [int] *)

Module PyList.
Section Indexing.
Context {A : Type}.

(** The position [l[i]] denotes: [0 <= i < len(l)] counts from the front,
    [-len(l) <= i < 0] from the back, anything else is out of range. *)
Definition position (l : list A) (i : Z) : option nat :=
  let n := Z.of_nat (length l) in
  if (0 <=? i)%Z && (i <? n)%Z then Some (Z.to_nat i)
  else if (- n <=? i)%Z && (i <? 0)%Z then Some (Z.to_nat (n + i))
  else None.

(** [l[i]] *)
Definition getitem (l : list A) (i : Z) : Outcome A :=
  match position l i with
  | Some k => match l !! k with
              | Some x => Returns x
              | None => Raises IndexError
              end
  | None => Raises IndexError
  end.

(** [l[i] = x]: the updated list, or [IndexError] *)
Definition setitem (l : list A) (i : Z) (x : A) : Outcome (list A) :=
  match position l i with
  | Some k => Returns (<[k := x]> l)
  | None => Raises IndexError
  end.
End Indexing.
End PyList.

(** ** The store *)

(** [LiveStreamClient]: [queue] is [None] or a [queue.Queue], whose content is
    listed oldest first.  A queue is referenced from its client only. *)
Record LiveStreamClient : Type := {
  type : string;
  queue : option (list (list byte));
}.

(** One record of [Logging.info]; the fields are the values interpolated into
    the message. *)
Inductive LogRecord : Type :=
| ClientConnected (livestream_id : string) (ordinal : Z)
| ClientDisconnected (livestream_id : string) (ordinal : Z)
| StatusChanged (livestream_id status detail : string).

Section Model.

(** Timestamps are opaque: the code stores what [time.time()] returns and
    never computes with it.  [time_time n] is the [n]-th reading of the
    clock since the module was loaded. *)
Context {Time : Type}.
Variable time_time : nat -> Time.

(** The instance dictionary of a [LiveStream] object.  [None] means the
    attribute is not set on the instance, so that a lookup falls through to
    the class.  [quality] is annotated [int] but holds what the caller
    passed, a text such as [1080p], or a part of [split('-')] in
    [getIdlingLiveStream]; it is kept as the text the f-string renders. *)
Record Instance : Type := {
  channel_id : option string;
  quality : option string;
  livestream_id : option string;
  status : option string;
  detail : option string;
  updated_at : option Time;
}.

(** What [super().__new__(cls)] returns: an object with no attribute set. *)
Definition blank : Instance :=
  {| channel_id := None; quality := None; livestream_id := None;
     status := None; detail := None; updated_at := None |}.

Record World : Type := {
  (** [LiveStreamEntity.livestreams], in insertion order *)
  livestreams : list (string * nat);
  (** the [LiveStream] objects created so far, by address *)
  heap : list Instance;
  (** [LiveStream.clients]: the list object bound in the class body.  No
      method assigns [self.clients], so on every instance [self.clients] is
      this one list. *)
  clients : list (option LiveStreamClient);
  (** records written by [Logging.info], oldest first *)
  log : list LogRecord;
  (** receivers of the [LiveEncodingTask] threads started, oldest first *)
  threads : list nat;
  (** number of clock readings taken so far *)
  ticks : nat;
}.

(** The store right after the module is loaded: the class body of
    [LiveStream] has read the clock once. *)
Definition boot : World :=
  {| livestreams := []; heap := []; clients := []; log := [];
     threads := []; ticks := 1 |}.

(** *** The monad of method bodies *)

Definition Py (A : Type) : Type := World -> Outcome A * World.

Definition ret {A} (a : A) : Py A := fun w => (Returns a, w).

Definition raise {A} (e : PyExn) : Py A := fun w => (Raises e, w).

Definition bind {A B} (m : Py A) (k : A -> Py B) : Py B :=
  fun w =>
    match m w with
    | (Returns a, w') => k a w'
    | (Raises e, w') => (Raises e, w')
    | (Blocks, w') => (Blocks, w')
    end.

(** [try: body / except e: handler] *)
Definition try_except {A} (body : Py A) (e : PyExn) (handler : Py A) : Py A :=
  fun w =>
    match body w with
    | (Raises e', w') => if exn_eqb e e' then handler w' else (Raises e', w')
    | r => r
    end.

Local Notation "x <- m ;; k" := (bind m (fun x => k))
  (at level 100, m at next level, right associativity).
Local Notation "m ;;; k" := (bind m (fun _ => k))
  (at level 100, right associativity).

(** *** Attribute access *)

(** The object at an address.  Addresses are handed out by [__new__] only
    and the heap never shrinks, so the default is never used on a store the
    program can reach. *)
Definition deref (w : World) (self : nat) : Instance :=
  default blank (heap w !! self).

(** Class attributes of [LiveStream], found when the instance has none. *)
Definition class_status : string := "Offline".
Definition class_detail : string := "ラブストリームは Offline です。".
Definition class_updated_at : Time := time_time 0.

Definition status_of (o : Instance) : string := default class_status (status o).
Definition detail_of (o : Instance) : string := default class_detail (detail o).
Definition updated_at_of (o : Instance) : Time :=
  default class_updated_at (updated_at o).

(** [self.livestream_id]: the class body only annotates it, so there is no
    class attribute to fall back to. *)
Definition get_livestream_id (self : nat) : Py string :=
  fun w =>
    match livestream_id (deref w self) with
    | Some s => (Returns s, w)
    | None => (Raises AttributeError, w)
    end.

Definition set_heap (h : list Instance) (w : World) : World :=
  {| livestreams := livestreams w; heap := h; clients := clients w;
     log := log w; threads := threads w; ticks := ticks w |}.

Definition set_livestreams (d : list (string * nat)) (w : World) : World :=
  {| livestreams := d; heap := heap w; clients := clients w;
     log := log w; threads := threads w; ticks := ticks w |}.

Definition set_clients (cs : list (option LiveStreamClient)) (w : World) : World :=
  {| livestreams := livestreams w; heap := heap w; clients := cs;
     log := log w; threads := threads w; ticks := ticks w |}.

(** [Logging.info(...)] *)
Definition Logging_info (r : LogRecord) : Py unit :=
  fun w =>
    (Returns tt,
     {| livestreams := livestreams w; heap := heap w; clients := clients w;
        log := log w ++ [r]; threads := threads w; ticks := ticks w |}).

(** [time.time()] *)
Definition time_now : Py Time :=
  fun w =>
    (Returns (time_time (ticks w)),
     {| livestreams := livestreams w; heap := heap w; clients := clients w;
        log := log w; threads := threads w; ticks := S (ticks w) |}).

(** [threading.Thread(target=run, name='LiveEncodingTask').start()]: the
    task runs elsewhere; the store only remembers that it was started, and
    for which receiver. *)
Definition thread_start (self : nat) : Py unit :=
  fun w =>
    (Returns tt,
     {| livestreams := livestreams w; heap := heap w; clients := clients w;
        log := log w; threads := threads w ++ [self]; ticks := ticks w |}).

(** Assignments [self.attr = v]. *)
Definition assign (f : Instance -> Instance) (self : nat) : Py unit :=
  fun w => (Returns tt, set_heap (alter f self (heap w)) w).

Definition with_identity (c q l : string) (o : Instance) : Instance :=
  {| channel_id := Some c; quality := Some q; livestream_id := Some l;
     status := status o; detail := detail o; updated_at := updated_at o |}.

Definition with_status (s : string) (o : Instance) : Instance :=
  {| channel_id := channel_id o; quality := quality o;
     livestream_id := livestream_id o;
     status := Some s; detail := detail o; updated_at := updated_at o |}.

Definition with_detail (d : string) (o : Instance) : Instance :=
  {| channel_id := channel_id o; quality := quality o;
     livestream_id := livestream_id o;
     status := status o; detail := Some d; updated_at := updated_at o |}.

Definition with_updated_at (t : Time) (o : Instance) : Instance :=
  {| channel_id := channel_id o; quality := quality o;
     livestream_id := livestream_id o;
     status := status o; detail := detail o; updated_at := Some t |}.

(** *** Dictionaries keyed by strings, in insertion order *)

Fixpoint dict_get (d : list (string * nat)) (k : string) : option nat :=
  match d with
  | [] => None
  | (k', v) :: rest => if String.eqb k' k then Some v else dict_get rest k
  end.

(** [k in d] *)
Definition dict_contains (d : list (string * nat)) (k : string) : bool :=
  match dict_get d k with Some _ => true | None => false end.

(** [d[k] = v]: a new key goes to the end, a known key keeps its place. *)
Fixpoint dict_set (d : list (string * nat)) (k : string) (v : nat)
  : list (string * nat) :=
  match d with
  | [] => [(k, v)]
  | (k', v') :: rest =>
      if String.eqb k' k then (k', v) :: rest else (k', v') :: dict_set rest k v
  end.

(** [d.values()] *)
Definition dict_values (d : list (string * nat)) : list nat := map snd d.

(** *** class LiveStreamEntity *)

(** [LiveStreamEntity.__new__(cls, *args)], with [args[0]] and [args[1]] *)
Definition LiveStreamEntity_new (arg0 arg1 : string) : Py nat :=
  fun w =>
    let livestream_id := Str.hyphenate arg0 arg1 in
    let w1 :=
      if negb (dict_contains (livestreams w) livestream_id) then
        let obj := length (heap w) in
        set_livestreams (dict_set (livestreams w) livestream_id obj)
          (set_heap (heap w ++ [blank]) w)
      else w in
    match dict_get (livestreams w1) livestream_id with
    | Some obj => (Returns obj, w1)
    | None => (Raises KeyError, w1)
    end.

(** *** class LiveStream *)

(** [LiveStream.__init__(self, channel_id, quality)] *)
Definition LiveStream_init (self : nat) (channel_id quality : string) : Py unit :=
  assign (with_identity channel_id quality (Str.hyphenate channel_id quality)) self.

(** The call [LiveStream(channel_id, quality)]: [__new__], then [__init__]
    on what it returned. *)
Definition LiveStream (channel_id quality : string) : Py nat :=
  self <- LiveStreamEntity_new channel_id quality ;;
  LiveStream_init self channel_id quality ;;;
  ret self.

(** The dictionary [getStatus] returns. *)
Record StatusDict : Type := {
  st_status : string;
  st_detail : string;
  st_updated_at : Time;
  st_clients_count : nat;
}.

(** [len(list(filter(None, clients)))]: a client object is truthy, [None]
    is not. *)
Definition count_clients (cs : list (option LiveStreamClient)) : nat :=
  length (filter (fun c => is_Some c) cs).

(** [LiveStream.getStatus(self)] *)
Definition getStatus (self : nat) : Py StatusDict :=
  fun w =>
    let o := deref w self in
    (Returns {| st_status := status_of o;
                st_detail := detail_of o;
                st_updated_at := updated_at_of o;
                st_clients_count := count_clients (clients w) |}, w).

(** [LiveStream.setStatus(self, status, detail)] *)
Definition setStatus (self : nat) (status detail : string) : Py unit :=
  fun w =>
    let o := deref w self in
    if String.eqb (status_of o) status && String.eqb (detail_of o) detail
    then (Returns tt, w)
    else
      (id <- get_livestream_id self ;;
       Logging_info (StatusChanged id status detail) ;;;
       assign (with_status status) self ;;;
       assign (with_detail detail) self ;;;
       now <- time_now ;;
       assign (with_updated_at now) self) w.

Definition detail_released : string :=
  "新しいライブストリームが開始されたため、チューナーリソースを解放しました。".
Definition detail_standby : string := "エンコーダーを起動しています…".
Definition detail_onair : string := "ライブストリームは ONAir です。".

(** The loop of [getIdlingLiveStream] over [livestreams.values()].  The
    iterator first checks that the dictionary still has the size it had
    when the loop began ([size0]), also when no value is left. *)
Fixpoint getIdlingLiveStream_loop (size0 : nat) (values : list nat)
    (result : list nat) : Py (list nat) :=
  fun w =>
    if negb (length (livestreams w) =? size0) then (Raises RuntimeError, w)
    else
      match values with
      | [] => (Returns result, w)
      | livestream :: rest =>
          if String.eqb (status_of (deref w livestream)) "Idling" then
            (id <- get_livestream_id livestream ;;
             match Str.split "-" id with
             | [channel_id; quality] =>
                 l <- LiveStream channel_id quality ;;
                 getIdlingLiveStream_loop size0 rest (result ++ [l])
             | _ => raise ValueError
             end) w
          else getIdlingLiveStream_loop size0 rest result w
      end.

(** [LiveStream.getIdlingLiveStream(self)] *)
Definition getIdlingLiveStream (self : nat) : Py (list nat) :=
  fun w =>
    getIdlingLiveStream_loop (length (livestreams w))
      (dict_values (livestreams w)) [] w.

(** [LiveStreamClient(type = type, queue = queue.Queue() if type == 'mpegts'
    else None)] *)
Definition new_client (type : string) : LiveStreamClient :=
  {| type := type;
     queue := if String.eqb type "mpegts" then Some [] else None |}.

(** [connect], first block: an [Offline] stream frees the first idling
    stream, goes to [Standby] and starts its encoder. *)
Definition connect_switch (self : nat) : Py unit :=
  st <- getStatus self ;;
  if String.eqb (st_status st) "Offline" then
    idling_livestream <- getIdlingLiveStream self ;;
    match idling_livestream with
    | first :: _ => setStatus first "Offline" detail_released
    | [] => ret tt
    end ;;;
    setStatus self "Standby" detail_standby ;;;
    thread_start self
  else ret tt.

(** [connect], second block: the new client is appended and its index is
    the client ID. *)
Definition connect_register (self : nat) (type : string) : Py Z :=
  (fun w => (Returns tt, set_clients (clients w ++ [Some (new_client type)]) w)) ;;;
  client_id <- (fun w => (Returns (Z.of_nat (length (clients w)) - 1)%Z, w)) ;;
  id <- get_livestream_id self ;;
  Logging_info (ClientConnected id (client_id + 1)%Z) ;;;
  ret client_id.

(** [connect], third block: an [Idling] stream is back [ONAir]. *)
Definition connect_resume (self : nat) : Py unit :=
  st <- getStatus self ;;
  if String.eqb (st_status st) "Idling" then
    setStatus self "ONAir" detail_onair
  else ret tt.

(** [LiveStream.connect(self, type)] *)
Definition connect (self : nat) (type : string) : Py Z :=
  connect_switch self ;;;
  client_id <- connect_register self type ;;
  connect_resume self ;;;
  ret client_id.

(** [LiveStream.disconnect(self, client_id)] *)
Definition disconnect (self : nat) (client_id : Z) : Py unit :=
  fun w =>
    if 0 <? length (clients w) then
      match PyList.setitem (clients w) client_id None with
      | Returns cs =>
          (id <- get_livestream_id self ;;
           Logging_info (ClientDisconnected id (client_id + 1)%Z))
            (set_clients cs w)
      | Raises e => (Raises e, w)
      | Blocks => (Blocks, w)
      end
    else (Returns tt, w).

(** [client.queue.get()]: without a queue the attribute lookup [None.get]
    fails; an empty queue makes the caller wait; otherwise the oldest item
    is taken out.  [k] is the position of the client in the table. *)
Definition queue_get (k : nat) (c : LiveStreamClient) : Py (option (list byte)) :=
  fun w =>
    match queue c with
    | None => (Raises AttributeError, w)
    | Some [] => (Blocks, w)
    | Some (item :: items) =>
        (Returns (Some item),
         set_clients
           (<[k := Some {| type := type c; queue := Some items |}]> (clients w)) w)
    end.

(** [LiveStream.read(self, client_id)]; Python's [None] is [None] here. *)
Definition read (self : nat) (client_id : Z) : Py (option (list byte)) :=
  fun w =>
    if 0 <? length (clients w) then
      match PyList.getitem (clients w) client_id with
      | Returns (Some c) =>
          try_except
            (queue_get (default 0 (PyList.position (clients w) client_id)) c)
            TypeError
            (ret None) w
      | Returns None => (Returns None, w)
      | Raises e => (Raises e, w)
      | Blocks => (Blocks, w)
      end
    else (Returns None, w).

(** The loop of [write] over the client table; a client typed [mpegts]
    without a queue stops it with the failure of [None.put]. *)
Fixpoint write_loop (stream_data : list byte)
    (cs : list (option LiveStreamClient))
  : Outcome unit * list (option LiveStreamClient) :=
  match cs with
  | [] => (Returns tt, [])
  | None :: rest =>
      let '(r, rest') := write_loop stream_data rest in (r, None :: rest')
  | Some c :: rest =>
      if String.eqb (type c) "mpegts" then
        match queue c with
        | Some items =>
            let '(r, rest') := write_loop stream_data rest in
            (r, Some {| type := type c; queue := Some (items ++ [stream_data]) |}
                  :: rest')
        | None => (Raises AttributeError, cs)
        end
      else
        let '(r, rest') := write_loop stream_data rest in (r, Some c :: rest')
  end.

(** [LiveStream.write(self, stream_data)] *)
Definition write (self : nat) (stream_data : list byte) : Py unit :=
  fun w =>
    let '(r, cs) := write_loop stream_data (clients w) in
    (r, set_clients cs w).

(** ** Calls from outside, and runs of several calls *)

Inductive Call : Type :=
| Construct (channel_id quality : string)
| Connect (self : nat) (type : string)
| Disconnect (self : nat) (client_id : Z)
| GetIdlingLiveStream (self : nat)
| GetStatus (self : nat)
| SetStatus (self : nat) (status detail : string)
| Read (self : nat) (client_id : Z)
| Write (self : nat) (stream_data : list byte).

(** The store a call leaves behind, whether it returned or raised. *)
Definition after (c : Call) (w : World) : World :=
  match c with
  | Construct channel_id quality => snd (LiveStream channel_id quality w)
  | Connect self type => snd (connect self type w)
  | Disconnect self client_id => snd (disconnect self client_id w)
  | GetIdlingLiveStream self => snd (getIdlingLiveStream self w)
  | GetStatus self => snd (getStatus self w)
  | SetStatus self status detail => snd (setStatus self status detail w)
  | Read self client_id => snd (read self client_id w)
  | Write self stream_data => snd (write self stream_data w)
  end.

(** [[LiveStream(c, q) for (c, q) in args]] *)
Fixpoint construct_all (args : list (string * string)) : Py (list nat) :=
  match args with
  | [] => ret []
  | (channel_id, quality) :: rest =>
      l <- LiveStream channel_id quality ;;
      ls <- construct_all rest ;;
      ret (l :: ls)
  end.

(** [for p in payloads: self.write(p)] *)
Fixpoint write_all (self : nat) (payloads : list (list byte)) : Py unit :=
  match payloads with
  | [] => ret tt
  | p :: rest => write self p ;;; write_all self rest
  end.

(** [[self.read(client_id) for _ in range(n)]] *)
Fixpoint read_n (self : nat) (client_id : Z) (n : nat)
  : Py (list (option (list byte))) :=
  match n with
  | O => ret []
  | S n' =>
      r <- read self client_id ;;
      rs <- read_n self client_id n' ;;
      ret (r :: rs)
  end.

(** ** Invariants of the stores the program builds *)

(** A registered object carries the key it is registered under (so it is in
    the heap: an address outside has no attribute at all). *)
Definition entry_ok (w : World) (e : string * nat) : bool :=
  match livestream_id (deref w e.2) with
  | Some l => String.eqb l e.1
  | None => false
  end.

Fixpoint distinct_keys (d : list (string * nat)) : bool :=
  match d with
  | [] => true
  | (k, _) :: rest => negb (dict_contains rest k) && distinct_keys rest
  end.

Definition registry_ok (w : World) : bool :=
  forallb (entry_ok w) (livestreams w) && distinct_keys (livestreams w).

(** A client typed [mpegts] has a queue, as [connect] makes it. *)
Definition client_ok (c : option LiveStreamClient) : bool :=
  match c with
  | Some cl => implb (String.eqb (type cl) "mpegts") (bool_decide (is_Some (queue cl)))
  | None => true
  end.

Definition clients_ok (w : World) : bool := forallb client_ok (clients w).

(** The stores the program reaches: booted, then any calls, one after
    another. *)
Definition reached (calls : list Call) : World :=
  foldl (fun w c => after c w) boot calls.

(** [livestream.status == 'Idling'] *)
Definition is_idling (w : World) (livestream : nat) : bool :=
  String.eqb (status_of (deref w livestream)) "Idling".

(** The streams [getIdlingLiveStream] is meant to list: the idling ones, in
    the order of the registry. *)
Definition idling_streams (w : World) : list nat :=
  List.filter (is_idling w) (dict_values (livestreams w)).

(** The key has exactly one hyphen. *)
Definition splits_in_two (k : string) : bool :=
  match Str.split "-" k with
  | [_; _] => true
  | _ => false
  end.

(** The key of every idling stream has exactly one hyphen. *)
Definition idling_keys_ok (w : World) : bool :=
  forallb (fun e => implb (is_idling w e.2) (splits_in_two e.1)) (livestreams w).

(** What [write] does to one slot of the table. *)
Definition enqueue (stream_data : list byte) (c : option LiveStreamClient)
  : option LiveStreamClient :=
  match c with
  | Some cl =>
      if String.eqb (type cl) "mpegts" then
        Some {| type := type cl;
                queue := option_map (fun items => items ++ [stream_data]) (queue cl) |}
      else c
  | None => None
  end.

(** ** Stores used in the examples *)

Definition run {A} (m : Py A) : World := snd (m boot).

(** Two streams, freshly constructed. *)
Definition two_streams : World :=
  run (LiveStream "gr011" "1080p" ;;; LiveStream "bs101" "1080p").

(** One stream with a single client of the given type. *)
Definition one_client (type : string) : World :=
  run (l <- LiveStream "gr011" "1080p" ;; connect l type).

(** One stream with an [mpegts] client, then an [hls] client. *)
Definition push_and_pull : World :=
  run (l <- LiveStream "gr011" "1080p" ;;
       connect l "mpegts" ;;;
       connect l "hls").

(** A stream whose channel identifier has a hyphen is idling; a second
    stream is offline. *)
Definition hyphen_idling : World :=
  run (a <- LiveStream "gr-011" "1080p" ;;
       LiveStream "bs101" "1080p" ;;;
       setStatus a "Idling" "idle").

(** The store a status change produces. *)
Definition status_changed (w : World) (self : nat) (o : Instance)
    (id s d : string) : World :=
  {| livestreams := livestreams w;
     heap := <[self := {| channel_id := channel_id o; quality := quality o;
                          livestream_id := Some id; status := Some s;
                          detail := Some d;
                          updated_at := Some (time_time (ticks w)) |}]> (heap w);
     clients := clients w;
     log := log w ++ [StatusChanged id s d];
     threads := threads w;
     ticks := S (ticks w) |}.

(** [self.getStatus()['clients_count']] *)
Definition clientsCount (self : nat) (w : World) : nat :=
  match fst (getStatus self w) with
  | Returns st => st_clients_count st
  | _ => 0
  end.

(** The store [disconnect] leaves when it tombstones slot [k]. *)
Definition disconnected (w : World) (id : string) (client_id : Z) (k : nat)
  : World :=
  {| livestreams := livestreams w; heap := heap w;
     clients := <[k := None]> (clients w);
     log := log w ++ [ClientDisconnected id (client_id + 1)%Z];
     threads := threads w; ticks := ticks w |}.

(** ** Frames: what a method leaves alone *)

(** [keeps R m]: whatever [m] does (return, raise or wait), the store it
    leaves is related by [R] to the store it started from. *)
Definition keeps {A} (R : relation World) (m : Py A) : Prop :=
  forall w, R w (snd (m w)).

(** The steps [setStatus] is made of. *)
Class StatusFrame (R : relation World) : Prop := {
  frame_preorder :: PreOrder R;
  frame_log r : keeps R (Logging_info r);
  frame_clock : keeps R time_now;
  frame_status s self : keeps R (assign (with_status s) self);
  frame_detail d self : keeps R (assign (with_detail d) self);
  frame_updated_at t self : keeps R (assign (with_updated_at t) self);
}.

(** With the construction of a stream and the start of its encoder. *)
Class Frame (R : relation World) : Prop := {
  frame_status_frame :: StatusFrame R;
  frame_thread self : keeps R (thread_start self);
  frame_construct c q : keeps R (LiveStream c q);
}.

(** The registry only gains entries, at its end. *)
Definition registry_grows : relation World :=
  fun w w' => livestreams w `prefix_of` livestreams w'.

(** The client table is the same. *)
Definition same_clients : relation World :=
  fun w w' => clients w' = clients w.

(** The registry is the same. *)
Definition same_registry : relation World :=
  fun w w' => livestreams w' = livestreams w.

(** An invariant, once true, stays true. *)
Definition stays (P : World -> bool) : relation World :=
  fun w w' => P w = true -> P w' = true.

(** No object changes its [livestream_id]. *)
Definition same_ids : relation World :=
  fun w w' => forall a, livestream_id (deref w' a) = livestream_id (deref w a).

(** The stores agree on everything but, possibly, [channel_id] and [quality]
    of some objects. *)
Definition same_but_identity : relation World :=
  fun w w' =>
    livestreams w' = livestreams w /\ clients w' = clients w /\
    log w' = log w /\ threads w' = threads w /\ ticks w' = ticks w /\
    length (heap w') = length (heap w) /\
    forall a,
      status (deref w' a) = status (deref w a) /\
      detail (deref w' a) = detail (deref w a) /\
      updated_at (deref w' a) = updated_at (deref w a) /\
      livestream_id (deref w' a) = livestream_id (deref w a).

(** [getIdlingLiveStream] can rebuild the stream from its key: the key splits
    into two parts, and these name the stream itself. *)
Definition rebuildable (w : World) (a : nat) : Prop :=
  exists c q,
    livestream_id (deref w a) = Some (Str.hyphenate c q) /\
    Str.split "-" (Str.hyphenate c q) = [c; q] /\
    dict_get (livestreams w) (Str.hyphenate c q) = Some a.

(** The encoder threads started are the same. *)
Definition same_threads : relation World :=
  fun w w' => threads w' = threads w.

(** The client table has lost no slot. *)
Definition table_grows : relation World :=
  fun w w' => length (clients w) <= length (clients w').

(** The store after a series of calls, one after another. *)
Definition after_all (calls : list Call) (w : World) : World :=
  foldl (fun w c => after c w) w calls.

(** The text has no hyphen. *)
Fixpoint no_hyphen (s : string) : bool :=
  match s with
  | EmptyString => true
  | String c rest => negb (Ascii.eqb c "-") && no_hyphen rest
  end.

(** [getIdlingLiveStream] cannot unpack the key of the stream. *)
Definition unsplittable (w : World) (a : nat) : Prop :=
  exists k, livestream_id (deref w a) = Some k /\ splits_in_two k = false.

(** Three streams: the first two are idling, the third is offline. *)
Definition two_idling : World :=
  run (a <- LiveStream "gr011" "1080p" ;;
       b <- LiveStream "bs101" "1080p" ;;
       LiveStream "cs201" "720p" ;;;
       setStatus a "Idling" "idle" ;;;
       setStatus b "Idling" "idle").

(** One stream with one client, tombstoned. *)
Definition one_tombstone : World :=
  run (l <- LiveStream "gr011" "1080p" ;;
       c <- connect l "mpegts" ;;
       disconnect l c).

(** * Properties *)

(** ** Lists and strings *)

Lemma alter_insert (f : Instance -> Instance) (h : list Instance) i o :
  h !! i = Some o -> alter f i h = <[i := f o]> h.
Proof.
  revert i. induction h as [|x h IH]; intros [|i] E; simplify_eq/=; auto.
  f_equal. auto.
Qed.

Lemma deref_lookup w self o : heap w !! self = Some o -> deref w self = o.
Proof. unfold deref. now intros ->. Qed.

Lemma deref_insert w h self o :
  self < length h -> deref (set_heap (<[self := o]> h) w) self = o.
Proof.
  intros L. unfold deref. simpl. now rewrite list_lookup_insert_eq.
Qed.

(** ** The status triple *)

Lemma setStatus_same w self s d :
  status_of (deref w self) = s -> detail_of (deref w self) = d ->
  setStatus self s d w = (Returns tt, w).
Proof.
  intros <- <-. unfold setStatus. now rewrite !String.eqb_refl.
Qed.

Lemma setStatus_differs w self o id s d :
  heap w !! self = Some o -> livestream_id o = Some id ->
  ~ (status_of o = s /\ detail_of o = d) ->
  setStatus self s d w = (Returns tt, status_changed w self o id s d).
Proof.
  intros Ho Hid Hne. unfold setStatus.
  rewrite (deref_lookup _ _ _ Ho).
  destruct (String.eqb (status_of o) s && String.eqb (detail_of o) d) eqn:E.
  - apply andb_true_iff in E as [E1 E2].
    apply String.eqb_eq in E1, E2. tauto.
  - unfold bind, get_livestream_id. rewrite (deref_lookup _ _ _ Ho), Hid.
    unfold Logging_info, assign, time_now, set_heap, status_changed. cbn.
    rewrite !list_alter_alter_eq, (alter_insert _ _ _ _ Ho). cbn.
    unfold with_updated_at, with_detail, with_status. cbn.
    now rewrite Hid.
Qed.

(** C6: [setStatus(s, d)] changes nothing at all (no field, no log record,
    no clock reading) when the stream already has status [s] and detail
    [d]; otherwise it writes status, detail and a fresh timestamp and emits
    one record; hence a second identical call leaves the store, and with it
    [updated_at], as the first call left it. *)
Theorem setStatus_noop_iff_unchanged w self o id s d :
  heap w !! self = Some o -> livestream_id o = Some id ->
  (status_of o = s /\ detail_of o = d ->
     setStatus self s d w = (Returns tt, w)) /\
  (~ (status_of o = s /\ detail_of o = d) ->
     let w' := snd (setStatus self s d w) in
     fst (setStatus self s d w) = Returns tt /\
     status_of (deref w' self) = s /\
     detail_of (deref w' self) = d /\
     updated_at_of (deref w' self) = time_time (ticks w) /\
     log w' = log w ++ [StatusChanged id s d]) /\
  (let w1 := snd (setStatus self s d w) in
   setStatus self s d w1 = (Returns tt, w1) /\
   updated_at_of (deref (snd (setStatus self s d w1)) self)
     = updated_at_of (deref w1 self)).
Proof.
  intros Ho Hid.
  assert (L : self < length (heap w)) by (eapply lookup_lt_Some; eauto).
  assert (Same : status_of o = s /\ detail_of o = d ->
                 setStatus self s d w = (Returns tt, w)).
  { intros [? ?]. apply setStatus_same; now rewrite (deref_lookup _ _ _ Ho). }
  assert (Second : setStatus self s d (snd (setStatus self s d w))
                   = (Returns tt, snd (setStatus self s d w))).
  { assert (D : (status_of o = s /\ detail_of o = d)
                \/ ~ (status_of o = s /\ detail_of o = d)).
    { destruct (String.eqb_spec (status_of o) s);
        destruct (String.eqb_spec (detail_of o) d); tauto. }
    destruct D as [Y|N].
    - rewrite (Same Y). cbn. now apply Same.
    - rewrite (setStatus_differs _ _ _ _ _ _ Ho Hid N). cbn.
      apply setStatus_same; unfold status_changed, deref; cbn;
        now rewrite list_lookup_insert_eq. }
  split; [exact Same|]. split.
  - intros N. rewrite (setStatus_differs _ _ _ _ _ _ Ho Hid N). cbn.
    unfold status_changed, deref; cbn.
    rewrite list_lookup_insert_eq by assumption. now cbn.
  - cbn. split; [exact Second|]. now rewrite Second.
Qed.

(** ** The client table *)

Lemma position_front (l : list (option LiveStreamClient)) i :
  (0 <= i < Z.of_nat (length l))%Z -> PyList.position l i = Some (Z.to_nat i).
Proof.
  intros [H1 H2]. unfold PyList.position.
  apply Z.leb_le in H1. apply Z.ltb_lt in H2. now rewrite H1, H2.
Qed.

Lemma position_back (l : list (option LiveStreamClient)) i :
  (- Z.of_nat (length l) <= i < 0)%Z ->
  PyList.position l i = Some (Z.to_nat (Z.of_nat (length l) + i)).
Proof.
  intros [H1 H2]. unfold PyList.position.
  replace (0 <=? i)%Z with false by (symmetry; apply Z.leb_gt; lia).
  apply Z.leb_le in H1. apply Z.ltb_lt in H2. now rewrite H1, H2.
Qed.

Lemma position_outside (l : list (option LiveStreamClient)) i :
  (i < - Z.of_nat (length l) \/ Z.of_nat (length l) <= i)%Z ->
  PyList.position l i = None.
Proof.
  intros H. unfold PyList.position.
  destruct (Z.leb_spec 0 i), (Z.ltb_spec i (Z.of_nat (length l)));
    destruct (Z.leb_spec (- Z.of_nat (length l)) i), (Z.ltb_spec i 0);
    cbn; try reflexivity; lia.
Qed.

Lemma position_lt (l : list (option LiveStreamClient)) i k :
  PyList.position l i = Some k -> k < length l.
Proof.
  unfold PyList.position.
  destruct (Z.leb_spec 0 i), (Z.ltb_spec i (Z.of_nat (length l)));
    destruct (Z.leb_spec (- Z.of_nat (length l)) i), (Z.ltb_spec i 0);
    cbn; intros E; simplify_eq; lia.
Qed.

Lemma nonempty_length (l : list (option LiveStreamClient)) :
  l <> [] -> (0 <? length l) = true.
Proof. destruct l; [congruence|reflexivity]. Qed.

Lemma count_clients_cons c cs :
  count_clients (c :: cs)
  = (if c is Some _ then 1 else 0) + count_clients cs.
Proof.
  unfold count_clients. destruct c.
  - rewrite filter_cons_True by eauto. reflexivity.
  - rewrite filter_cons_False by (intros [? ?]; discriminate). reflexivity.
Qed.

Lemma count_clients_app cs cs' :
  count_clients (cs ++ cs') = count_clients cs + count_clients cs'.
Proof. unfold count_clients. now rewrite filter_app, length_app. Qed.

Lemma count_clients_tombstone cs k c :
  cs !! k = Some (Some c) ->
  count_clients (<[k := None]> cs) + 1 = count_clients cs.
Proof.
  revert k. induction cs as [|x cs IH]; intros [|k] E; simplify_eq/=.
  - rewrite !count_clients_cons. lia.
  - rewrite !count_clients_cons. specialize (IH _ E). lia.
Qed.

Lemma tombstone_again (cs : list (option LiveStreamClient)) k :
  cs !! k = Some None -> <[k := None]> cs = cs.
Proof. apply list_insert_id. Qed.

(** *** read *)

Lemma read_empty w self client_id :
  clients w = [] -> read self client_id w = (Returns None, w).
Proof. intros E. unfold read. now rewrite E. Qed.

Lemma read_tombstone w self client_id k :
  PyList.position (clients w) client_id = Some k ->
  clients w !! k = Some None ->
  read self client_id w = (Returns None, w).
Proof.
  intros P E. unfold read, PyList.getitem. rewrite P, E.
  now destruct (0 <? length (clients w)).
Qed.

Lemma read_outside w self client_id :
  clients w <> [] ->
  PyList.position (clients w) client_id = None ->
  read self client_id w = (Raises IndexError, w).
Proof.
  intros N P. unfold read, PyList.getitem.
  now rewrite (nonempty_length _ N), P.
Qed.

Lemma read_slot w self client_id k c :
  PyList.position (clients w) client_id = Some k ->
  clients w !! k = Some (Some c) ->
  read self client_id w =
  match queue c with
  | None => (Raises AttributeError, w)
  | Some [] => (Blocks, w)
  | Some (item :: items) =>
      (Returns (Some item),
       set_clients
         (<[k := Some {| type := type c; queue := Some items |}]> (clients w)) w)
  end.
Proof.
  intros P E. unfold read, PyList.getitem. rewrite P, E.
  assert (N : clients w <> []) by (intros Z; rewrite Z in E; discriminate).
  rewrite (nonempty_length _ N). unfold try_except, queue_get. cbn.
  destruct (queue c) as [[|item items]|]; reflexivity.
Qed.

(** *** disconnect *)

Lemma disconnect_empty w self client_id :
  clients w = [] -> disconnect self client_id w = (Returns tt, w).
Proof. intros E. unfold disconnect. now rewrite E. Qed.

Lemma disconnect_outside w self client_id :
  clients w <> [] ->
  PyList.position (clients w) client_id = None ->
  disconnect self client_id w = (Raises IndexError, w).
Proof.
  intros N P. unfold disconnect, PyList.setitem.
  now rewrite (nonempty_length _ N), P.
Qed.

Lemma disconnect_slot w self client_id k :
  PyList.position (clients w) client_id = Some k ->
  disconnect self client_id w =
  (id <- get_livestream_id self ;;
   Logging_info (ClientDisconnected id (client_id + 1)%Z))
    (set_clients (<[k := None]> (clients w)) w).
Proof.
  intros P. unfold disconnect, PyList.setitem. rewrite P.
  assert (N : clients w <> []).
  { intros Z. apply position_lt in P. rewrite Z in P. cbn in P. lia. }
  now rewrite (nonempty_length _ N).
Qed.

Lemma disconnect_clients w self client_id :
  clients (snd (disconnect self client_id w)) =
  match PyList.position (clients w) client_id with
  | Some k => <[k := None]> (clients w)
  | None => clients w
  end.
Proof.
  destruct (PyList.position (clients w) client_id) as [k|] eqn:P.
  - rewrite (disconnect_slot _ _ _ _ P).
    unfold bind, get_livestream_id, deref. cbn.
    now destruct (livestream_id _).
  - assert (D : clients w = [] \/ clients w <> [])
      by (destruct (clients w); [left|right]; congruence).
    destruct D as [E|N].
    + now rewrite disconnect_empty.
    + now rewrite disconnect_outside.
Qed.

Lemma clientsCount_eq self w : clientsCount self w = count_clients (clients w).
Proof. reflexivity. Qed.

Lemma disconnect_returns w self id client_id k :
  livestream_id (deref w self) = Some id ->
  PyList.position (clients w) client_id = Some k ->
  disconnect self client_id w = (Returns tt, disconnected w id client_id k).
Proof.
  intros Hid P. rewrite (disconnect_slot _ _ _ _ P).
  unfold bind, get_livestream_id, deref in *. cbn. now rewrite Hid.
Qed.

Lemma position_same_length (l l' : list (option LiveStreamClient)) i :
  length l = length l' -> PyList.position l i = PyList.position l' i.
Proof. unfold PyList.position. now intros ->. Qed.

(** Disconnecting twice leaves the table as disconnecting once does. *)
Lemma disconnect_twice w self client_id :
  clients (after (Disconnect self client_id) (after (Disconnect self client_id) w))
  = clients (after (Disconnect self client_id) w).
Proof.
  cbn. rewrite (disconnect_clients (snd _)), (disconnect_clients w).
  destruct (PyList.position (clients w) client_id) as [k|] eqn:P.
  - rewrite (position_same_length _ (clients w)) by apply length_insert.
    rewrite P. apply list_insert_insert_eq.
  - now rewrite P.
Qed.

(** A tombstoned slot: [disconnect] returns and the count stays. *)
Lemma disconnect_tombstoned w self id client_id k :
  livestream_id (deref w self) = Some id ->
  PyList.position (clients w) client_id = Some k ->
  clients w !! k = Some None ->
  fst (disconnect self client_id w) = Returns tt /\
  clients (snd (disconnect self client_id w)) = clients w /\
  clientsCount self (snd (disconnect self client_id w)) = clientsCount self w.
Proof.
  intros Hid P E. rewrite (disconnect_returns _ _ _ _ _ Hid P).
  rewrite !clientsCount_eq. cbn. now rewrite (tombstone_again _ _ E).
Qed.

(** C10, amended: on a table of [n] slots a client ID in [-n .. -1] denotes
    slot [n + client_id]: [read] does what it does for that slot, and
    [disconnect] tombstones it.  [disconnect(-1)] tombstones the slot
    inserted last, and the count drops by one when that slot was active. *)
Theorem negative_client_id_counts_from_end w self id client_id :
  livestream_id (deref w self) = Some id ->
  (- Z.of_nat (length (clients w)) <= client_id < 0)%Z ->
  let n := length (clients w) in
  let k := Z.to_nat (Z.of_nat n + client_id) in
  k < n /\
  read self client_id w = read self (Z.of_nat k) w /\
  disconnect self client_id w = (Returns tt, disconnected w id client_id k) /\
  (client_id = (-1)%Z ->
     k = n - 1 /\
     forall c, clients w !! (n - 1) = Some (Some c) ->
       clientsCount self (snd (disconnect self client_id w)) + 1
       = clientsCount self w).
Proof.
  intros Hid R n k.
  assert (K : k < n) by (subst k n; lia).
  assert (P : PyList.position (clients w) client_id = Some k)
    by (apply position_back; assumption).
  assert (P' : PyList.position (clients w) (Z.of_nat k) = Some k).
  { rewrite position_front by (fold n; lia). now rewrite Nat2Z.id. }
  split; [exact K|]. split; [|split].
  - unfold read, PyList.getitem. now rewrite P, P'.
  - now apply disconnect_returns.
  - intros ->. assert (k = n - 1) as Ek by (subst k; lia).
    split; [exact Ek|]. intros c E.
    rewrite (disconnect_returns _ _ _ _ _ Hid P), !clientsCount_eq. cbn.
    rewrite Ek. eapply count_clients_tombstone; eassumption.
Qed.

(** *** write *)

Lemma write_loop_ok data cs :
  forallb client_ok cs = true ->
  write_loop data cs = (Returns tt, map (enqueue data) cs).
Proof.
  induction cs as [|[c|] cs IH]; cbn; [reflexivity| |].
  - intros H. apply andb_true_iff in H as [Hc Hcs].
    rewrite (IH Hcs). destruct (String.eqb (type c) "mpegts"); [|reflexivity].
    cbn in Hc. apply bool_decide_eq_true in Hc as [items Hq].
    now rewrite Hq.
  - intros H. now rewrite (IH H).
Qed.

Lemma enqueue_ok data c : client_ok c = true -> client_ok (enqueue data c) = true.
Proof.
  destruct c as [c|]; cbn; [|reflexivity].
  destruct (String.eqb (type c) "mpegts") eqn:E; cbn; rewrite E; [|reflexivity].
  cbn. intros H. apply bool_decide_eq_true in H as [items ->].
  apply bool_decide_eq_true. cbn. eauto.
Qed.

Lemma write_ok w self data :
  clients_ok w = true ->
  write self data w = (Returns tt, set_clients (map (enqueue data) (clients w)) w).
Proof. intros H. unfold write. now rewrite (write_loop_ok _ _ H). Qed.

Lemma write_keeps_ok w self data :
  clients_ok w = true -> clients_ok (snd (write self data w)) = true.
Proof.
  intros H. rewrite (write_ok _ _ _ H). unfold clients_ok in *. cbn.
  rewrite forallb_forall in *. intros c Hc. apply in_map_iff in Hc as (c0 & <- & Hc0).
  apply enqueue_ok. auto.
Qed.

Lemma write_all_slot self k payloads : forall w c items,
  clients_ok w = true ->
  clients w !! k = Some (Some c) ->
  String.eqb (type c) "mpegts" = true ->
  queue c = Some items ->
  exists w',
    write_all self payloads w = (Returns tt, w') /\
    length (clients w') = length (clients w) /\
    clients w' !! k
    = Some (Some {| type := type c; queue := Some (items ++ payloads) |}).
Proof.
  induction payloads as [|p ps IH]; intros w c items Ok E Ty Q.
  - exists w. cbn. rewrite app_nil_r. repeat split.
    rewrite E. destruct c; cbn in *. now rewrite Q.
  - cbn. unfold bind. pose proof (write_keeps_ok w self p Ok) as Ok'.
    rewrite (write_ok _ _ _ Ok) in *. cbn in Ok'.
    edestruct (IH (set_clients (map (enqueue p) (clients w)) w)
                 {| type := type c; queue := Some (items ++ [p]) |}
                 (items ++ [p])) as (w' & R & L & S); try eassumption; try reflexivity.
    + cbn. rewrite list_lookup_fmap, E. cbn. now rewrite Ty, Q.
    + exists w'. split; [exact R|]. split.
      * rewrite L. cbn. apply length_map.
      * rewrite S. cbn. now rewrite <- app_assoc.
Qed.

Lemma read_n_slot self client_id k items : forall w c,
  PyList.position (clients w) client_id = Some k ->
  clients w !! k = Some (Some c) ->
  queue c = Some items ->
  fst (read_n self client_id (length items) w) = Returns (map Some items).
Proof.
  induction items as [|item items IH]; intros w c P E Q; [reflexivity|].
  cbn. unfold bind. rewrite (read_slot _ _ _ _ _ P E), Q.
  specialize (IH (set_clients
                    (<[k := Some {| type := type c; queue := Some items |}]>
                       (clients w)) w)
                 {| type := type c; queue := Some items |}).
  pose proof (position_lt _ _ _ P) as L.
  cbn in IH. rewrite (position_same_length _ (clients w)) in IH
    by apply length_insert.
  specialize (IH P (list_lookup_insert_eq _ _ _ L) eq_refl).
  destruct (read_n self client_id (length items) _) as [[rs| |] w'];
    cbn in *; congruence.
Qed.

(** C7: [write(payload)] returns and appends [payload] to the queue of every
    slot that holds a client typed [mpegts], leaving every other slot and
    the rest of the store as they were; and for each such slot, reading as
    many times as items are queued after a series of writes returns what
    was queued before followed by the payloads, in the order written. *)
Theorem write_broadcasts_in_order w self :
  clients_ok w = true ->
  (forall payload,
     write self payload w
     = (Returns tt, set_clients (map (enqueue payload) (clients w)) w)) /\
  (forall client_id k c items payloads,
     PyList.position (clients w) client_id = Some k ->
     clients w !! k = Some (Some c) ->
     type c = "mpegts"%string ->
     queue c = Some items ->
     fst (bind (write_all self payloads)
            (fun _ => read_n self client_id (length items + length payloads)) w)
     = Returns (map Some (items ++ payloads))).
Proof.
  intros Ok. split; [intros; now apply write_ok|].
  intros client_id k c items payloads P E Ty Q.
  apply String.eqb_eq in Ty.
  destruct (write_all_slot self k payloads w c items Ok E Ty Q)
    as (w' & R & L & S).
  unfold bind. rewrite R. rewrite <- length_app.
  eapply read_n_slot; [|exact S|reflexivity].
  now rewrite (position_same_length _ (clients w)).
Qed.

(** ** Frames *)

Lemma keeps_ret {A} R `{!Reflexive R} (a : A) : keeps R (ret a).
Proof. intros w. cbn. reflexivity. Qed.

Lemma keeps_raise {A} R `{!Reflexive R} e : keeps R (raise (A := A) e).
Proof. intros w. cbn. reflexivity. Qed.

Lemma keeps_bind {A B} R `{!Transitive R} (m : Py A) (k : A -> Py B) :
  keeps R m -> (forall a, keeps R (k a)) -> keeps R (bind m k).
Proof.
  intros Hm Hk w. unfold bind. specialize (Hm w).
  destruct (m w) as [[a| |] w1]; cbn in *; try assumption.
  etransitivity; [exact Hm | apply Hk].
Qed.

Lemma keeps_get_livestream_id R `{!Reflexive R} self :
  keeps R (get_livestream_id self).
Proof.
  intros w. unfold get_livestream_id.
  destruct (livestream_id _); cbn; reflexivity.
Qed.

Lemma keeps_getStatus R `{!Reflexive R} self : keeps R (getStatus self).
Proof. intros w. cbn. reflexivity. Qed.

Lemma keeps_setStatus R `{!StatusFrame R} self s d : keeps R (setStatus self s d).
Proof.
  intros w. unfold setStatus.
  destruct (_ && _); [cbn; reflexivity|].
  revert w. apply keeps_bind; [apply _|apply keeps_get_livestream_id; apply _|].
  intros id.
  repeat (apply keeps_bind; [apply _| |intros ?]);
    auto using frame_log, frame_clock, frame_status, frame_detail,
      frame_updated_at.
Qed.

Lemma keeps_getIdlingLiveStream_loop R `{!Frame R} size0 values :
  forall result, keeps R (getIdlingLiveStream_loop size0 values result).
Proof.
  induction values as [|l values IH]; intros result w; cbn.
  - destruct (negb _); cbn; reflexivity.
  - destruct (negb _); [cbn; reflexivity|].
    destruct (String.eqb _ _); [|apply IH].
    revert w. apply keeps_bind; [apply _|apply keeps_get_livestream_id; apply _|].
    intros id. destruct (Str.split _ id) as [|c [|q [|? ?]]];
      try (apply keeps_raise; apply _).
    apply keeps_bind; [apply _|apply frame_construct|]. intros a. apply IH.
Qed.

Lemma keeps_getIdlingLiveStream R `{!Frame R} self :
  keeps R (getIdlingLiveStream self).
Proof.
  intros w. unfold getIdlingLiveStream.
  now apply keeps_getIdlingLiveStream_loop.
Qed.

Lemma keeps_connect_switch R `{!Frame R} self : keeps R (connect_switch self).
Proof.
  unfold connect_switch.
  apply keeps_bind; [apply _|apply keeps_getStatus; apply _|]. intros st.
  destruct (String.eqb _ _); [|apply keeps_ret; apply _].
  apply keeps_bind; [apply _|now apply keeps_getIdlingLiveStream|].
  intros idling.
  apply keeps_bind; [apply _| |intros _].
  { destruct idling; [apply keeps_ret; apply _|apply keeps_setStatus; apply _]. }
  apply keeps_bind; [apply _|apply keeps_setStatus; apply _|intros _].
  apply frame_thread.
Qed.

Lemma keeps_connect_resume R `{!StatusFrame R} self : keeps R (connect_resume self).
Proof.
  unfold connect_resume.
  apply keeps_bind; [apply _|apply keeps_getStatus; apply _|]. intros st.
  destruct (String.eqb _ _); [apply keeps_setStatus; assumption|].
  apply keeps_ret; apply _.
Qed.

(** ** The registry *)

Lemma dict_set_absent d k v :
  dict_get d k = None -> dict_set d k v = d ++ [(k, v)].
Proof.
  induction d as [|[k' v'] d IH]; cbn; [reflexivity|].
  destruct (String.eqb k' k); [discriminate|]. intros E. now rewrite IH.
Qed.

Lemma dict_get_app_present d d' k a :
  dict_get d k = Some a -> dict_get (d ++ d') k = Some a.
Proof.
  induction d as [|[k' v'] d IH]; cbn; [discriminate|].
  now destruct (String.eqb k' k).
Qed.

Lemma dict_get_snoc_absent d k v :
  dict_get d k = None -> dict_get (d ++ [(k, v)]) k = Some v.
Proof.
  induction d as [|[k' v'] d IH]; cbn.
  - now rewrite String.eqb_refl.
  - now destruct (String.eqb k' k).
Qed.

(** The store after [__new__] has registered a new object. *)
Lemma new_absent w c q :
  dict_get (livestreams w) (Str.hyphenate c q) = None ->
  LiveStreamEntity_new c q w =
  (Returns (length (heap w)),
   set_livestreams (livestreams w ++ [(Str.hyphenate c q, length (heap w))])
     (set_heap (heap w ++ [blank]) w)).
Proof.
  intros E. unfold LiveStreamEntity_new, dict_contains. rewrite E. cbn.
  rewrite (dict_set_absent _ _ _ E). now rewrite (dict_get_snoc_absent _ _ _ E).
Qed.

Lemma new_present w c q a :
  dict_get (livestreams w) (Str.hyphenate c q) = Some a ->
  LiveStreamEntity_new c q w = (Returns a, w).
Proof.
  intros E. unfold LiveStreamEntity_new, dict_contains. rewrite E. cbn.
  now rewrite E.
Qed.

Lemma LiveStream_absent w c q :
  dict_get (livestreams w) (Str.hyphenate c q) = None ->
  LiveStream c q w =
  (Returns (length (heap w)),
   set_livestreams (livestreams w ++ [(Str.hyphenate c q, length (heap w))])
     (set_heap (heap w ++ [with_identity c q (Str.hyphenate c q) blank]) w)).
Proof.
  intros E. unfold LiveStream, LiveStream_init, bind, assign, ret.
  rewrite (new_absent _ _ _ E). cbn. unfold set_livestreams, set_heap. cbn.
  do 3 f_equal.
  replace (length (heap w)) with (length (heap w) + 0) at 1 by lia.
  now rewrite alter_app_r.
Qed.

Lemma LiveStream_present w c q a :
  dict_get (livestreams w) (Str.hyphenate c q) = Some a ->
  LiveStream c q w =
  (Returns a,
   set_heap (alter (with_identity c q (Str.hyphenate c q)) a (heap w)) w).
Proof.
  intros E. unfold LiveStream, LiveStream_init, bind, assign, ret.
  now rewrite (new_present _ _ _ _ E).
Qed.

(** A registered address is in the heap, under its key. *)
Lemma registry_ok_entry w k a :
  registry_ok w = true -> dict_get (livestreams w) k = Some a ->
  exists o, heap w !! a = Some o /\ livestream_id o = Some k.
Proof.
  unfold registry_ok. intros H. apply andb_true_iff in H as [H _].
  induction (livestreams w) as [|[k' v'] d IH]; cbn in *; [discriminate|].
  apply andb_true_iff in H as [He Hd].
  destruct (String.eqb_spec k' k) as [->|N]; [|now apply IH].
  intros [= ->]. unfold entry_ok, deref in He. cbn in He.
  destruct (heap w !! a) as [o|]; cbn in He; [|discriminate].
  destruct (livestream_id o) as [l|] eqn:El; [|discriminate].
  apply String.eqb_eq in He. subst. eauto.
Qed.

#[local] Instance registry_grows_preorder : PreOrder registry_grows.
Proof.
  split.
  - intros w. unfold registry_grows. reflexivity.
  - intros w1 w2 w3. unfold registry_grows. apply transitivity.
Qed.

#[local] Instance registry_grows_status : StatusFrame registry_grows.
Proof.
  split; [apply _|..]; intros; intros w; unfold registry_grows; cbn;
    reflexivity.
Qed.

#[local] Instance registry_grows_frame : Frame registry_grows.
Proof.
  split; [apply _|..]; intros; intros w; unfold registry_grows;
    try (cbn; reflexivity).
  destruct (dict_get (livestreams w) (Str.hyphenate c q)) as [a|] eqn:E.
  - rewrite (LiveStream_present _ _ _ _ E). reflexivity.
  - rewrite (LiveStream_absent _ _ _ E). cbn. now apply prefix_app_r.
Qed.

#[local] Instance same_clients_preorder : PreOrder same_clients.
Proof.
  split.
  - now intros w.
  - intros w1 w2 w3. unfold same_clients. congruence.
Qed.

#[local] Instance same_clients_status : StatusFrame same_clients.
Proof. split; [apply _|..]; intros; intros w; reflexivity. Qed.

#[local] Instance same_clients_frame : Frame same_clients.
Proof.
  split; [apply _|..]; intros; intros w; try reflexivity.
  unfold same_clients.
  destruct (dict_get (livestreams w) (Str.hyphenate c q)) as [a|] eqn:E.
  - now rewrite (LiveStream_present _ _ _ _ E).
  - now rewrite (LiveStream_absent _ _ _ E).
Qed.

#[local] Instance same_ids_preorder : PreOrder same_ids.
Proof.
  split.
  - now intros w a.
  - intros w1 w2 w3 H1 H2 a. now rewrite H2, H1.
Qed.

Lemma same_ids_assign f self :
  (forall o, livestream_id (f o) = livestream_id o) ->
  keeps same_ids (assign f self).
Proof.
  intros Hf w a. unfold assign, deref. cbn.
  destruct (decide (self = a)) as [->|N].
  - rewrite list_lookup_alter_eq. destruct (heap w !! a); cbn; [apply Hf|reflexivity].
  - now rewrite list_lookup_alter_ne.
Qed.

#[local] Instance same_ids_status : StatusFrame same_ids.
Proof.
  split; [apply _|..]; intros; try (now intros w a);
    now apply same_ids_assign.
Qed.

(** The registry is append-only: whatever is called, and whether it returns
    or raises, the registry before is a prefix of the registry after. *)
Lemma keeps_connect_register R `{!StatusFrame R} self type :
  keeps R (fun w => (Returns tt,
                     set_clients (clients w ++ [Some (new_client type)]) w)) ->
  keeps R (connect_register self type).
Proof.
  intros Happend. unfold connect_register.
  apply keeps_bind; [apply _|exact Happend|intros _].
  apply keeps_bind; [apply _|intros w; cbn; reflexivity|intros ?].
  apply keeps_bind; [apply _|apply keeps_get_livestream_id; apply _|intros ?].
  apply keeps_bind; [apply _|apply frame_log|intros ?].
  apply keeps_ret; apply _.
Qed.

Lemma keeps_connect R `{!Frame R} self type :
  keeps R (fun w => (Returns tt,
                     set_clients (clients w ++ [Some (new_client type)]) w)) ->
  keeps R (connect self type).
Proof.
  intros Happend. unfold connect.
  apply keeps_bind; [apply _|now apply keeps_connect_switch|intros _].
  apply keeps_bind; [apply _|apply keeps_connect_register; [apply _|exact Happend]|].
  intros cid.
  apply keeps_bind; [apply _|apply keeps_connect_resume; apply _|intros _].
  apply keeps_ret; apply _.
Qed.

(** The registry is append-only: whatever is called, and whether it returns
    or raises, the registry before is a prefix of the registry after. *)
Lemma registry_append_only c w : registry_grows w (after c w).
Proof.
  destruct c; cbn.
  - exact (frame_construct (R := registry_grows) _ _ w).
  - apply (keeps_connect registry_grows). intros w'.
    unfold registry_grows. reflexivity.
  - unfold registry_grows. unfold disconnect.
    destruct (0 <? _); [|reflexivity].
    destruct (PyList.setitem _ _ _); try reflexivity.
    unfold bind, get_livestream_id. cbn. now destruct (livestream_id _).
  - exact (keeps_getIdlingLiveStream registry_grows _ w).
  - unfold registry_grows. reflexivity.
  - exact (keeps_setStatus registry_grows _ _ _ w).
  - unfold registry_grows, read. destruct (0 <? _); [|reflexivity].
    destruct (PyList.getitem _ _) as [[c|]| |]; try reflexivity.
    unfold try_except, queue_get. now destruct (queue c) as [[|? ?]|].
  - unfold registry_grows, write. now destruct (write_loop _ _).
Qed.

Lemma registered_stays c w k a :
  dict_get (livestreams w) k = Some a ->
  dict_get (livestreams (after c w)) k = Some a.
Proof.
  intros E. destruct (registry_append_only c w) as [d ->].
  now apply dict_get_app_present.
Qed.

Lemma construct_all_present key a args : forall w,
  Forall (fun p => Str.hyphenate p.1 p.2 = key) args ->
  dict_get (livestreams w) key = Some a ->
  exists w',
    construct_all args w = (Returns (replicate (length args) a), w') /\
    livestreams w' = livestreams w /\
    length (heap w') = length (heap w).
Proof.
  induction args as [|[c q] args IH]; intros w Hk Ha.
  - exists w. now cbn.
  - apply Forall_cons in Hk as [Hcq Hk]. cbn in Hcq. subst key.
    cbn. unfold bind. rewrite (LiveStream_present _ _ _ _ Ha).
    destruct (IH (set_heap (alter (with_identity c q (Str.hyphenate c q)) a
                              (heap w)) w) Hk Ha) as (w' & R & L & H).
    exists w'. rewrite R. cbn in *. rewrite length_alter in H. now repeat split.
Qed.

(** C1: constructing [LiveStream] any number of times (at least once) with
    arguments that give one key returns one and the same object every
    time, and allocates one object if the key was not registered and none
    if it was; afterwards the key is registered to that object.  No call
    of any method removes or moves a registry entry: the registry before a
    call is a prefix of the registry after it, and a key keeps the object
    it is registered to. *)
Theorem one_instance_per_key w key p args :
  Forall (fun p => Str.hyphenate p.1 p.2 = key) (p :: args) ->
  (exists a w',
     construct_all (p :: args) w = (Returns (replicate (S (length args)) a), w') /\
     dict_get (livestreams w') key = Some a /\
     length (heap w') =
       length (heap w) + (if dict_contains (livestreams w) key then 0 else 1) /\
     livestreams w `prefix_of` livestreams w') /\
  (forall c,
     livestreams w `prefix_of` livestreams (after c w) /\
     forall k a, dict_get (livestreams w) k = Some a ->
                 dict_get (livestreams (after c w)) k = Some a).
Proof.
  intros Hk. split.
  - destruct p as [c q]. apply Forall_cons in Hk as [Hcq Hk]. cbn in Hcq.
    subst key. cbn. unfold bind, dict_contains.
    destruct (dict_get (livestreams w) (Str.hyphenate c q)) as [a|] eqn:E.
    + rewrite (LiveStream_present _ _ _ _ E).
      destruct (construct_all_present _ a args
                  (set_heap (alter (with_identity c q (Str.hyphenate c q)) a
                               (heap w)) w) Hk E) as (w' & R & L & H).
      exists a, w'. rewrite R. cbn in *. rewrite length_alter in H.
      rewrite L, H, ?E. repeat split; auto with lia.
    + rewrite (LiveStream_absent _ _ _ E).
      pose proof (dict_get_snoc_absent _ _ (length (heap w)) E) as E'.
      destruct (construct_all_present _ (length (heap w)) args
                  (set_livestreams
                     (livestreams w ++ [(Str.hyphenate c q, length (heap w))])
                     (set_heap (heap w ++ [with_identity c q (Str.hyphenate c q)
                                             blank]) w)) Hk E')
        as (w' & R & L & H).
      exists (length (heap w)), w'. rewrite R. cbn in *.
      rewrite length_app in H. cbn in H. rewrite L, H, ?E.
      repeat split; auto. now apply prefix_app_r.
  - intros c. split; [apply registry_append_only|].
    intros k a. apply registered_stays.
Qed.

(** C9: the object is chosen by the joined string alone.  When two argument
    pairs join to the same string, on a store whose registry is sound, the
    two constructions return the same object, the second allocates nothing,
    and the object's [channel_id] and [quality] are those of the first pair
    after the first construction and those of the second pair after the
    second. *)
Theorem same_joined_string_same_instance w c1 q1 c2 q2 :
  registry_ok w = true ->
  Str.hyphenate c1 q1 = Str.hyphenate c2 q2 ->
  exists a w1 w2,
    LiveStream c1 q1 w = (Returns a, w1) /\
    LiveStream c2 q2 w1 = (Returns a, w2) /\
    length (heap w2) = length (heap w1) /\
    livestreams w2 = livestreams w1 /\
    channel_id (deref w1 a) = Some c1 /\ quality (deref w1 a) = Some q1 /\
    channel_id (deref w2 a) = Some c2 /\ quality (deref w2 a) = Some q2.
Proof.
  intros Ok Hj.
  assert (Step : exists a w1,
             LiveStream c1 q1 w = (Returns a, w1) /\
             dict_get (livestreams w1) (Str.hyphenate c1 q1) = Some a /\
             exists o, heap w1 !! a = Some o /\
                       channel_id o = Some c1 /\ quality o = Some q1).
  { destruct (dict_get (livestreams w) (Str.hyphenate c1 q1)) as [a|] eqn:E.
    - destruct (registry_ok_entry _ _ _ Ok E) as (o & Ho & _).
      eexists _, _. split; [apply (LiveStream_present _ _ _ _ E)|].
      split; [exact E|]. cbn. rewrite list_lookup_alter_eq, Ho. cbn. eauto.
    - eexists _, _. split; [apply (LiveStream_absent _ _ _ E)|].
      split; [cbn; now apply dict_get_snoc_absent|].
      cbn. rewrite lookup_app_r by lia. rewrite Nat.sub_diag. cbn. eauto. }
  destruct Step as (a & w1 & R1 & E1 & o & Ho & Hc & Hq).
  rewrite Hj in E1.
  exists a, w1, (set_heap (alter (with_identity c2 q2 (Str.hyphenate c2 q2)) a
                            (heap w1)) w1).
  split; [exact R1|]. split; [apply (LiveStream_present _ _ _ _ E1)|].
  cbn. rewrite length_alter. repeat split.
  - now rewrite (deref_lookup _ _ _ Ho).
  - now rewrite (deref_lookup _ _ _ Ho).
  - unfold deref. cbn. now rewrite list_lookup_alter_eq, Ho.
  - unfold deref. cbn. now rewrite list_lookup_alter_eq, Ho.
Qed.

(** ** Invariants *)

#[local] Instance stays_preorder P : PreOrder (stays P).
Proof. split; unfold stays; [intros w|intros w1 w2 w3]; auto. Qed.

Lemma registry_ok_stable w w' :
  same_ids w w' -> livestreams w' = livestreams w ->
  registry_ok w = true -> registry_ok w' = true.
Proof.
  intros Hid Hreg. unfold registry_ok. rewrite Hreg.
  intros H. apply andb_true_iff in H as [H1 H2]. apply andb_true_iff.
  split; [|exact H2]. rewrite forallb_forall in *. intros e He.
  specialize (H1 e He). unfold entry_ok in *. now rewrite Hid.
Qed.

Lemma dict_get_app_absent d d' k :
  dict_get d k = None -> dict_get (d ++ d') k = dict_get d' k.
Proof.
  induction d as [|[k' v'] d IH]; cbn; [reflexivity|].
  now destruct (String.eqb k' k).
Qed.

Lemma distinct_keys_snoc d k v :
  distinct_keys d = true -> dict_get d k = None ->
  distinct_keys (d ++ [(k, v)]) = true.
Proof.
  induction d as [|[k' v'] d IH]; cbn; [reflexivity|].
  intros H. apply andb_true_iff in H as [H1 H2].
  destruct (String.eqb_spec k' k) as [->|N]; [discriminate|]. intros E.
  rewrite (IH H2 E), andb_true_r. unfold dict_contains in *.
  destruct (dict_get d k') eqn:E'; [discriminate|].
  rewrite (dict_get_app_absent _ _ _ E'). cbn.
  destruct (String.eqb_spec k k'); [congruence|reflexivity].
Qed.

Lemma stays_registry_ok_construct c q : keeps (stays registry_ok) (LiveStream c q).
Proof.
  intros w Ok.
  destruct (dict_get (livestreams w) (Str.hyphenate c q)) as [a|] eqn:E.
  - rewrite (LiveStream_present _ _ _ _ E). cbn.
    destruct (registry_ok_entry _ _ _ Ok E) as (o & Ho & Hid).
    apply (registry_ok_stable w); [|reflexivity|exact Ok].
    intros b. unfold deref. cbn.
    destruct (decide (a = b)) as [<-|N].
    + rewrite list_lookup_alter_eq, Ho. cbn. now rewrite Hid.
    + now rewrite list_lookup_alter_ne.
  - rewrite (LiveStream_absent _ _ _ E). cbn.
    unfold registry_ok in *. cbn. apply andb_true_iff in Ok as [H1 H2].
    apply andb_true_iff. split; [|now apply distinct_keys_snoc].
    rewrite forallb_app. cbn. apply andb_true_iff. split.
    + rewrite forallb_forall in *. intros e He. specialize (H1 e He).
      unfold entry_ok, deref in *. cbn.
      destruct (heap w !! e.2) as [o|] eqn:Eo; [|discriminate].
      now rewrite (lookup_app_l_Some _ _ _ _ Eo).
    + unfold entry_ok, deref. cbn. rewrite lookup_app_r by lia.
      rewrite Nat.sub_diag. cbn. now rewrite String.eqb_refl.
Qed.

Lemma stays_registry_ok_step {A} (m : Py A) :
  keeps same_ids m -> keeps same_registry m -> keeps (stays registry_ok) m.
Proof.
  intros H1 H2 w. unfold stays. apply registry_ok_stable; [apply H1|apply H2].
Qed.

#[local] Instance stays_registry_ok_status : StatusFrame (stays registry_ok).
Proof.
  split; [apply _|..]; intros; apply stays_registry_ok_step;
    try (now intros w); try (now intros w a); now apply same_ids_assign.
Qed.

#[local] Instance stays_registry_ok_frame : Frame (stays registry_ok).
Proof.
  split; [apply _| |apply stays_registry_ok_construct].
  intros self. apply stays_registry_ok_step; [now intros w a|now intros w].
Qed.

#[local] Instance stays_clients_ok_status : StatusFrame (stays clients_ok).
Proof. split; [apply _|..]; intros; intros w; exact (fun H => H). Qed.

#[local] Instance stays_clients_ok_frame : Frame (stays clients_ok).
Proof.
  split; [apply _|..]; intros; intros w; unfold stays, clients_ok.
  - exact (fun H => H).
  - now rewrite (frame_construct (R := same_clients) c q w).
Qed.

Lemma forallb_insert {X} (f : X -> bool) l k x :
  forallb f l = true -> f x = true -> forallb f (<[k := x]> l) = true.
Proof.
  revert k. induction l as [|y l IH]; intros k H Hx; [reflexivity|].
  cbn in H. apply andb_true_iff in H as [Hy Hl].
  destruct k; cbn; apply andb_true_iff; auto.
Qed.

(** Calls that touch neither the heap nor the registry. *)
Lemma client_calls_keep_objects c w :
  match c with
  | Disconnect _ _ | Read _ _ | Write _ _ | GetStatus _ => True
  | _ => False
  end ->
  heap (after c w) = heap w /\ livestreams (after c w) = livestreams w.
Proof.
  destruct c; intros []; cbn.
  - unfold disconnect. destruct (0 <? _); [|now split].
    destruct (PyList.setitem _ _ _); try (now split).
    unfold bind, get_livestream_id. cbn. now destruct (livestream_id _).
  - now split.
  - unfold read. destruct (0 <? _); [|now split].
    destruct (PyList.getitem _ _) as [[c|]| |]; try (now split).
    unfold try_except, queue_get. now destruct (queue c) as [[|? ?]|].
  - unfold write. now destruct (write_loop _ _).
Qed.

Lemma write_loop_keeps_ok data cs :
  forallb client_ok cs = true ->
  forallb client_ok (snd (write_loop data cs)) = true.
Proof.
  intros H. rewrite (write_loop_ok _ _ H). cbn.
  rewrite forallb_forall in *. intros c Hc.
  apply in_map_iff in Hc as (c0 & <- & Hc0). apply enqueue_ok. auto.
Qed.

(** Every call keeps the registry sound. *)
Lemma registry_ok_after c w : registry_ok w = true -> registry_ok (after c w) = true.
Proof.
  assert (Client : heap (after c w) = heap w /\
                   livestreams (after c w) = livestreams w ->
                   registry_ok w = true -> registry_ok (after c w) = true).
  { intros [Hh Hl]. apply registry_ok_stable; [|exact Hl].
    intros a. unfold deref. now rewrite Hh. }
  destruct c.
  - exact (frame_construct (R := stays registry_ok) _ _ w).
  - apply (keeps_connect (stays registry_ok)).
    apply stays_registry_ok_step; [now intros w' a|now intros w'].
  - apply Client. now apply client_calls_keep_objects.
  - exact (keeps_getIdlingLiveStream (stays registry_ok) _ w).
  - apply Client. now apply client_calls_keep_objects.
  - exact (keeps_setStatus (stays registry_ok) _ _ _ w).
  - apply Client. now apply client_calls_keep_objects.
  - apply Client. now apply client_calls_keep_objects.
Qed.

(** Every call keeps the client table as [connect] builds it. *)
Lemma clients_ok_after c w : clients_ok w = true -> clients_ok (after c w) = true.
Proof.
  destruct c; cbn.
  - exact (frame_construct (R := stays clients_ok) _ _ w).
  - apply (keeps_connect (stays clients_ok)). intros w'. unfold stays, clients_ok.
    cbn. rewrite forallb_app. intros ->. cbn.
    unfold new_client. cbn. now destruct (String.eqb type0 "mpegts").
  - unfold clients_ok. rewrite disconnect_clients.
    destruct (PyList.position _ _); [|auto]. intros H. now apply forallb_insert.
  - exact (keeps_getIdlingLiveStream (stays clients_ok) _ w).
  - auto.
  - exact (keeps_setStatus (stays clients_ok) _ _ _ w).
  - unfold clients_ok, read. destruct (0 <? _); [|auto].
    destruct (PyList.getitem _ _) as [[c|]| |]; auto.
    unfold try_except, queue_get. destruct (queue c) as [[|? ?]|]; auto.
    cbn. intros H. apply forallb_insert; [exact H|].
    cbn. now destruct (String.eqb (type c) "mpegts").
  - unfold clients_ok, write. intros H.
    pose proof (write_loop_keeps_ok stream_data _ H) as H'.
    now destruct (write_loop _ _).
Qed.

(** Both invariants hold in every store the program reaches. *)
Lemma reached_ok calls :
  registry_ok (reached calls) = true /\ clients_ok (reached calls) = true.
Proof.
  unfold reached.
  assert (G : forall w, registry_ok w = true /\ clients_ok w = true ->
                        registry_ok (foldl (fun w c => after c w) w calls) = true /\
                        clients_ok (foldl (fun w c => after c w) w calls) = true).
  { induction calls as [|c calls IH]; intros w [H1 H2]; [now split|].
    cbn. apply IH. split; [now apply registry_ok_after|now apply clients_ok_after]. }
  apply G. now split.
Qed.

(** ** connect *)

Lemma connect_register_unfold w self type :
  connect_register self type w =
  let w' := set_clients (clients w ++ [Some (new_client type)]) w in
  match livestream_id (deref w self) with
  | Some id =>
      (Returns (Z.of_nat (length (clients w))),
       snd (Logging_info
              (ClientConnected id (Z.of_nat (length (clients w)) + 1)%Z) w'))
  | None => (Raises AttributeError, w')
  end.
Proof.
  unfold connect_register, bind, get_livestream_id, deref. cbn.
  rewrite length_app. cbn.
  replace (Z.of_nat (length (clients w) + 1) - 1)%Z
    with (Z.of_nat (length (clients w))) by lia.
  now destruct (livestream_id _).
Qed.

(** What is known when [connect] has returned. *)
Lemma connect_returned w self type client_id :
  fst (connect self type w) = Returns client_id ->
  client_id = Z.of_nat (length (clients w)) /\
  clients (snd (connect self type w)) = clients w ++ [Some (new_client type)] /\
  exists id, livestream_id (deref (snd (connect self type w)) self) = Some id.
Proof.
  unfold connect, bind.
  pose proof (keeps_connect_switch same_clients self w) as C0.
  destruct (connect_switch self w) as [[[]| |] w0]; cbn in C0;
    try (cbn; discriminate).
  cbv beta iota. rewrite connect_register_unfold. cbv zeta.
  destruct (livestream_id (deref w0 self)) as [id|] eqn:Eid;
    [|cbn; discriminate].
  cbv beta iota.
  match goal with |- context [connect_resume self ?w'] => set (w1 := w') end.
  pose proof (keeps_connect_resume same_clients self w1) as C1.
  pose proof (keeps_connect_resume same_ids self w1 self) as I1.
  destruct (connect_resume self w1) as [[[]| |] w2]; cbn in C1, I1;
    try (cbn; discriminate).
  cbn. intros [= <-]. unfold same_clients in *. rewrite C1. subst w1. cbn.
  rewrite C0. repeat split. exists id. rewrite I1. exact Eid.
Qed.

(** The table is one for all streams: a client connected through one stream
    is counted by every stream. *)
Lemma connect_counts_for_every_stream w self other type client_id :
  fst (connect self type w) = Returns client_id ->
  clientsCount other (snd (connect self type w)) = S (clientsCount other w).
Proof.
  intros H. destruct (connect_returned _ _ _ _ H) as (_ & Hc & _).
  rewrite !clientsCount_eq, Hc, count_clients_app, count_clients_cons. cbn. lia.
Qed.

(** C8: when [connect(type)] has returned a client ID, [disconnect] on that
    ID returns, and the client count reported afterwards is the count
    reported before the [connect]. *)
Theorem connect_disconnect_net_zero w self type client_id :
  fst (connect self type w) = Returns client_id ->
  let w1 := snd (connect self type w) in
  fst (disconnect self client_id w1) = Returns tt /\
  clientsCount self (snd (disconnect self client_id w1)) = clientsCount self w.
Proof.
  intros H. destruct (connect_returned _ _ _ _ H) as (-> & Hc & id & Hid).
  cbn zeta.
  assert (P : PyList.position (clients (snd (connect self type w)))
                (Z.of_nat (length (clients w))) = Some (length (clients w))).
  { rewrite position_front; [now rewrite Nat2Z.id|].
    rewrite Hc, length_app. cbn. lia. }
  rewrite (disconnect_returns _ _ _ _ _ Hid P). cbn [fst snd].
  split; [reflexivity|].
  rewrite !clientsCount_eq. unfold disconnected. cbn [clients]. rewrite Hc.
  replace (length (clients w)) with (length (clients w) + 0) at 1 by lia.
  rewrite insert_app_r. cbn.
  rewrite count_clients_app, count_clients_cons. cbn. lia.
Qed.

(** ** Reclaiming an idling stream *)

Lemma split_nonempty sep s : Str.split sep s <> [].
Proof.
  destruct s as [|c s]; cbn; [discriminate|].
  destruct (Ascii.eqb c sep); [discriminate|].
  destruct (Str.split sep s); discriminate.
Qed.

Lemma split_one sep s : forall q, Str.split sep s = [q] -> s = q.
Proof.
  induction s as [|c s IH]; cbn; intros q.
  - now intros [= <-].
  - destruct (Ascii.eqb c sep).
    + intros [= <- E]. now apply split_nonempty in E.
    + destruct (Str.split sep s) as [|p ps] eqn:E;
        [now apply split_nonempty in E|].
      intros [= <- ->]. now rewrite (IH p eq_refl).
Qed.

(** Joining the two parts of a split gives the key back. *)
Lemma split_two k : forall c q, Str.split "-" k = [c; q] -> Str.hyphenate c q = k.
Proof.
  unfold Str.hyphenate.
  induction k as [|ch k IH]; cbn; intros c q; [discriminate|].
  destruct (Ascii.eqb_spec ch "-") as [->|N].
  - intros [= <- E]. cbn. now rewrite (split_one _ _ _ E).
  - destruct (Str.split "-" k) as [|p ps] eqn:E;
      [now apply split_nonempty in E|].
    intros [= <- ->]. cbn. now rewrite (IH p q eq_refl).
Qed.

Lemma dict_get_In d k a :
  distinct_keys d = true -> In (k, a) d -> dict_get d k = Some a.
Proof.
  induction d as [|[k' v'] d IH]; cbn; [tauto|].
  intros H. apply andb_true_iff in H as [H1 H2]. intros [[= -> ->]|Hin].
  - now rewrite String.eqb_refl.
  - specialize (IH H2 Hin). destruct (String.eqb_spec k' k) as [->|N]; [|exact IH].
    unfold dict_contains in H1. now rewrite IH in H1.
Qed.

Lemma deref_has_id w a k :
  livestream_id (deref w a) = Some k -> heap w !! a = Some (deref w a).
Proof. unfold deref. destruct (heap w !! a); cbn; [reflexivity|discriminate]. Qed.

(** On a sound store whose idling keys have one hyphen, every idling stream
    can be rebuilt. *)
Lemma idling_rebuildable w a :
  registry_ok w = true -> idling_keys_ok w = true ->
  In a (dict_values (livestreams w)) -> is_idling w a = true -> rebuildable w a.
Proof.
  unfold registry_ok, idling_keys_ok, dict_values. intros Ok Keys Hin Idle.
  apply andb_true_iff in Ok as [Entries Distinct].
  apply in_map_iff in Hin as ([k a'] & Ea & Hin). cbn in Ea. subst a'.
  rewrite forallb_forall in Entries, Keys.
  specialize (Entries _ Hin). specialize (Keys _ Hin). cbn in Keys.
  rewrite Idle in Keys. cbn in Keys. unfold splits_in_two in Keys.
  destruct (Str.split "-" k) as [|c [|q [|? ?]]] eqn:Es; try discriminate.
  pose proof (split_two _ _ _ Es) as Ek.
  unfold entry_ok in Entries. cbn in Entries.
  destruct (livestream_id (deref w a)) as [l|] eqn:El; [|discriminate].
  apply String.eqb_eq in Entries. subst l.
  exists c, q. rewrite Ek. repeat split; auto. now apply dict_get_In.
Qed.

#[local] Instance same_but_identity_preorder : PreOrder same_but_identity.
Proof.
  split.
  - intros w. unfold same_but_identity. repeat split.
  - intros w1 w2 w3 (A1 & B1 & C1 & D1 & E1 & F1 & G1)
      (A2 & B2 & C2 & D2 & E2 & F2 & G2).
    unfold same_but_identity. repeat split; try congruence;
      destruct (G1 a) as (? & ? & ? & ?), (G2 a) as (? & ? & ? & ?); congruence.
Qed.

Lemma rebuild_same_but_identity w a c q :
  livestream_id (deref w a) = Some (Str.hyphenate c q) ->
  same_but_identity w
    (set_heap (alter (with_identity c q (Str.hyphenate c q)) a (heap w)) w).
Proof.
  intros Hid. unfold same_but_identity. cbn. rewrite length_alter.
  repeat split; unfold deref in *; cbn;
    (destruct (decide (a = a0)) as [<-|N];
     [rewrite list_lookup_alter_eq; destruct (heap w !! a); cbn in *; congruence
     |now rewrite list_lookup_alter_ne]).
Qed.

Lemma is_idling_same w w' a :
  same_but_identity w w' -> is_idling w' a = is_idling w a.
Proof.
  intros (_ & _ & _ & _ & _ & _ & G). destruct (G a) as (S & _).
  unfold is_idling, status_of. now rewrite S.
Qed.

Lemma rebuildable_same w w' a :
  same_but_identity w w' -> rebuildable w a -> rebuildable w' a.
Proof.
  intros (L & _ & _ & _ & _ & _ & G) (c & q & Hid & Hs & Hg).
  destruct (G a) as (_ & _ & _ & I). exists c, q. rewrite I, L. auto.
Qed.

Lemma getIdlingLiveStream_loop_returns size0 values : forall result w,
  length (livestreams w) = size0 ->
  (forall a, In a values -> is_idling w a = true -> rebuildable w a) ->
  exists w',
    getIdlingLiveStream_loop size0 values result w
    = (Returns (result ++ List.filter (is_idling w) values), w') /\
    same_but_identity w w'.
Proof.
  induction values as [|l values IH]; intros result w Hsize Hre; cbn.
  - rewrite Hsize, Nat.eqb_refl. cbn. rewrite app_nil_r. now exists w.
  - rewrite Hsize, Nat.eqb_refl. cbn. fold (is_idling w l).
    destruct (is_idling w l) eqn:Idle.
    + destruct (Hre l (or_introl eq_refl) Idle) as (c & q & Hid & Hs & Hg).
      unfold bind at 1. unfold get_livestream_id. rewrite Hid, Hs.
      unfold bind. rewrite (LiveStream_present _ _ _ _ Hg).
      pose proof (rebuild_same_but_identity w l c q Hid) as Same.
      set (w1 := set_heap _ w) in *.
      destruct (IH (result ++ [l]) w1) as (w' & R & Same').
      * destruct Same as (L & _). now rewrite L.
      * intros a Ha Ia. apply (rebuildable_same w); [exact Same|].
        apply Hre; [now right|]. now rewrite <- (is_idling_same w w1).
      * exists w'. rewrite R. split; [|now transitivity w1].
        rewrite <- app_assoc. cbn. do 4 f_equal.
        apply filter_ext. intros a. now apply is_idling_same.
    + destruct (IH result w Hsize) as (w' & R & Same).
      * intros a Ha. apply Hre. now right.
      * now exists w'.
Qed.

(** On a sound store whose idling keys have one hyphen, [getIdlingLiveStream]
    returns the idling streams in registry order. *)
Lemma getIdlingLiveStream_returns w self :
  registry_ok w = true -> idling_keys_ok w = true ->
  exists w',
    getIdlingLiveStream self w = (Returns (idling_streams w), w') /\
    same_but_identity w w'.
Proof.
  intros Ok Keys. unfold getIdlingLiveStream, idling_streams.
  destruct (getIdlingLiveStream_loop_returns (length (livestreams w))
              (dict_values (livestreams w)) [] w eq_refl) as (w' & R & Same).
  - intros a. now apply idling_rebuildable.
  - now exists w'.
Qed.

Lemma deref_status_changed w a o id s d b :
  a < length (heap w) ->
  deref (status_changed w a o id s d) b =
  if decide (a = b) then
    {| channel_id := channel_id o; quality := quality o;
       livestream_id := Some id; status := Some s; detail := Some d;
       updated_at := Some (time_time (ticks w)) |}
  else deref w b.
Proof.
  intros L. unfold deref, status_changed. cbn.
  destruct (decide (a = b)) as [<-|N].
  - now rewrite list_lookup_insert_eq.
  - now rewrite list_lookup_insert_ne.
Qed.

Lemma connect_switch_when_offline w self :
  status_of (deref w self) = "Offline"%string ->
  connect_switch self w =
  bind (getIdlingLiveStream self)
    (fun idling_livestream =>
       bind match idling_livestream with
            | first :: _ => setStatus first "Offline" detail_released
            | [] => ret tt
            end
         (fun _ => bind (setStatus self "Standby" detail_standby)
                     (fun _ => thread_start self))) w.
Proof.
  intros H. unfold connect_switch. unfold bind at 1. unfold getStatus.
  cbv beta iota zeta. cbn [st_status]. now rewrite H.
Qed.

Lemma connect_switch_otherwise w self :
  status_of (deref w self) <> "Offline"%string ->
  connect_switch self w = (Returns tt, w).
Proof.
  intros H. unfold connect_switch. unfold bind at 1. unfold getStatus.
  cbv beta iota zeta. cbn [st_status].
  now destruct (String.eqb_spec (status_of (deref w self)) "Offline").
Qed.

Lemma connect_resume_unless_idling w self :
  status_of (deref w self) <> "Idling"%string ->
  connect_resume self w = (Returns tt, w).
Proof.
  intros H. unfold connect_resume. unfold bind at 1. unfold getStatus.
  cbv beta iota zeta. cbn [st_status].
  now destruct (String.eqb_spec (status_of (deref w self)) "Idling").
Qed.

(** A status change seen through the objects of the store. *)
Lemma setStatus_effect w a id s d :
  livestream_id (deref w a) = Some id ->
  ~ (status_of (deref w a) = s /\ detail_of (deref w a) = d) ->
  exists w',
    setStatus a s d w = (Returns tt, w') /\
    clients w' = clients w /\
    forall b,
      deref w' b =
      if decide (a = b) then
        {| channel_id := channel_id (deref w a); quality := quality (deref w a);
           livestream_id := Some id; status := Some s; detail := Some d;
           updated_at := Some (time_time (ticks w)) |}
      else deref w b.
Proof.
  intros Hid Hne. pose proof (deref_has_id _ _ _ Hid) as Ho.
  exists (status_changed w a (deref w a) id s d).
  split; [now apply setStatus_differs|]. split; [reflexivity|].
  intros b. apply deref_status_changed. eapply lookup_lt_Some; eassumption.
Qed.

(** The first block of [connect] on an offline stream, on a sound store whose
    idling keys have one hyphen. *)
Lemma connect_switch_offline w self ids :
  registry_ok w = true -> idling_keys_ok w = true ->
  livestream_id (deref w self) = Some ids ->
  status_of (deref w self) = "Offline"%string ->
  exists w',
    connect_switch self w = (Returns tt, w') /\
    clients w' = clients w /\
    livestream_id (deref w' self) = Some ids /\
    status (deref w' self) = Some "Standby"%string /\
    detail (deref w' self) = Some detail_standby /\
    match idling_streams w with
    | first :: _ =>
        status (deref w' first) = Some "Offline"%string /\
        detail (deref w' first) = Some detail_released
    | [] => True
    end /\
    forall a, a <> self -> head (idling_streams w) <> Some a ->
      status (deref w' a) = status (deref w a) /\
      detail (deref w' a) = detail (deref w a) /\
      updated_at (deref w' a) = updated_at (deref w a).
Proof.
  intros Ok Keys Hid Hoff.
  rewrite (connect_switch_when_offline _ _ Hoff).
  destruct (getIdlingLiveStream_returns w self Ok Keys) as (w1 & R & Same).
  unfold bind at 1. rewrite R.
  pose proof Same as (_ & C1 & _ & _ & _ & _ & G1).
  assert (Status1 : forall a, status_of (deref w1 a) = status_of (deref w a)).
  { intros a. destruct (G1 a) as (S & _). unfold status_of. now rewrite S. }
  assert (Id1 : forall a, livestream_id (deref w1 a) = livestream_id (deref w a)).
  { intros a. now destruct (G1 a) as (_ & _ & _ & I). }
  assert (Victim : exists w2,
             match idling_streams w with
             | first :: _ => setStatus first "Offline" detail_released
             | [] => ret tt
             end w1 = (Returns tt, w2) /\
             clients w2 = clients w1 /\ ticks w2 = ticks w2 /\
             deref w2 self = deref w1 self /\
             match idling_streams w with
             | first :: _ =>
                 status (deref w2 first) = Some "Offline"%string /\
                 detail (deref w2 first) = Some detail_released /\
                 first <> self
             | [] => True
             end /\
             forall a, head (idling_streams w) <> Some a ->
                       deref w2 a = deref w1 a).
  { destruct (idling_streams w) as [|first rest] eqn:Ei.
    - exists w1. now repeat split.
    - assert (Hin : In first (idling_streams w)) by (rewrite Ei; now left).
      unfold idling_streams in Hin. apply filter_In in Hin as [Hin Idle].
      destruct (idling_rebuildable _ _ Ok Keys Hin Idle) as (c & q & Hk & _).
      unfold is_idling in Idle. apply String.eqb_eq in Idle.
      assert (Ne : first <> self) by (intros ->; congruence).
      destruct (setStatus_effect w1 first (Str.hyphenate c q) "Offline"
                  detail_released) as (w2 & R2 & C2 & D2).
      + now rewrite Id1.
      + rewrite Status1, Idle. intros [? _]. discriminate.
      + exists w2. split; [exact R2|]. split; [exact C2|]. split; [reflexivity|].
        split.
        { rewrite D2. now destruct (decide (first = self)). }
        split.
        { rewrite D2. destruct (decide (first = first)); [|congruence].
          now repeat split. }
        intros a Ha. rewrite D2. cbn in Ha.
        destruct (decide (first = a)); [congruence|reflexivity]. }
  destruct Victim as (w2 & R2 & C2 & _ & Self2 & V2 & Others2).
  unfold bind at 1. rewrite R2.
  destruct (setStatus_effect w2 self ids "Standby" detail_standby)
    as (w3 & R3 & C3 & D3).
  { now rewrite Self2, Id1. }
  { rewrite Self2, Status1, Hoff. intros [? _]. discriminate. }
  unfold bind. rewrite R3. unfold thread_start.
  eexists. split; [reflexivity|]. cbn [clients].
  assert (D : forall b,
             deref {| livestreams := livestreams w3; heap := heap w3;
                      clients := clients w3; log := log w3;
                      threads := threads w3 ++ [self]; ticks := ticks w3 |} b
             = deref w3 b) by reflexivity.
  split; [congruence|]. rewrite !D, !D3.
  destruct (decide (self = self)); [|congruence]. cbn.
  do 3 (split; [reflexivity|]). split.
  - destruct (idling_streams w) as [|first rest]; [exact I|].
    destruct V2 as (S2 & Dt2 & Ne). rewrite D, D3.
    destruct (decide (self = first)); [congruence|]. now split.
  - intros a Na Hv. rewrite D, D3. destruct (decide (self = a)); [congruence|].
    rewrite (Others2 a Hv). destruct (G1 a) as (? & ? & ? & _). now repeat split.
Qed.

(** [connect] on an offline stream, on a sound store whose idling keys have
    one hyphen: the call returns the index of the new slot; the stream is in
    [Standby]; the first idling stream of the registry, if there is one, is
    [Offline] with the detail of a released tuner; status, detail and
    timestamp of every other stream are as before. *)
Lemma connect_offline_evicts_first_idling w self ids type :
  registry_ok w = true -> idling_keys_ok w = true ->
  livestream_id (deref w self) = Some ids ->
  status_of (deref w self) = "Offline"%string ->
  let w' := snd (connect self type w) in
  fst (connect self type w) = Returns (Z.of_nat (length (clients w))) /\
  status_of (deref w' self) = "Standby"%string /\
  match idling_streams w with
  | first :: _ =>
      status_of (deref w' first) = "Offline"%string /\
      detail_of (deref w' first) = detail_released
  | [] => True
  end /\
  forall a, a <> self -> head (idling_streams w) <> Some a ->
    status_of (deref w' a) = status_of (deref w a) /\
    detail_of (deref w' a) = detail_of (deref w a) /\
    updated_at_of (deref w' a) = updated_at_of (deref w a).
Proof.
  intros Ok Keys Hid Hoff.
  destruct (connect_switch_offline w self ids Ok Keys Hid Hoff)
    as (w3 & R3 & C3 & I3 & S3 & _ & V3 & O3).
  set (w4 := snd (Logging_info
                    (ClientConnected ids (Z.of_nat (length (clients w3)) + 1)%Z)
                    (set_clients (clients w3 ++ [Some (new_client type)]) w3))).
  assert (D : forall b, deref w4 b = deref w3 b) by reflexivity.
  assert (E : connect self type w = (Returns (Z.of_nat (length (clients w3))), w4)).
  { unfold connect. unfold bind at 1. rewrite R3.
    unfold bind at 1. rewrite connect_register_unfold, I3. cbv zeta.
    fold w4. unfold bind. rewrite connect_resume_unless_idling; [reflexivity|].
    rewrite D. unfold status_of. rewrite S3. cbn. discriminate. }
  cbv zeta. rewrite E. cbn [fst snd]. rewrite C3. split; [reflexivity|].
  unfold status_of, detail_of, updated_at_of. rewrite !D, S3.
  split; [reflexivity|]. split.
  - destruct (idling_streams w) as [|first rest]; [exact I|].
    rewrite !D. destruct V3 as [-> ->]. now split.
  - intros a Na Hv. rewrite !D. destruct (O3 a Na Hv) as (-> & -> & ->).
    now repeat split.
Qed.

Lemma setStatus_returns w a id s d :
  livestream_id (deref w a) = Some id ->
  exists w', setStatus a s d w = (Returns tt, w').
Proof.
  intros Hid. unfold setStatus.
  destruct (_ && _); [now exists w|].
  unfold bind, get_livestream_id. rewrite Hid. cbn. eauto.
Qed.

Lemma connect_resume_returns w self ids :
  livestream_id (deref w self) = Some ids ->
  exists w', connect_resume self w = (Returns tt, w').
Proof.
  intros Hid.
  destruct (String.eqb_spec (status_of (deref w self)) "Idling") as [Hi|Hn].
  - unfold connect_resume. unfold bind at 1. unfold getStatus.
    cbv beta iota zeta. cbn [st_status]. rewrite Hi, String.eqb_refl.
    now apply (setStatus_returns w self ids).
  - exists w. now apply connect_resume_unless_idling.
Qed.

(** [connect] returns on every sound store whose idling keys have one
    hyphen, whatever the status of the stream. *)
Lemma connect_returns w self ids type :
  registry_ok w = true -> idling_keys_ok w = true ->
  livestream_id (deref w self) = Some ids ->
  fst (connect self type w) = Returns (Z.of_nat (length (clients w))).
Proof.
  intros Ok Keys Hid.
  destruct (String.eqb_spec (status_of (deref w self)) "Offline") as [Hoff|Hon].
  - now apply (connect_offline_evicts_first_idling w self ids type Ok Keys Hid).
  - unfold connect. unfold bind at 1. rewrite (connect_switch_otherwise _ _ Hon).
    unfold bind at 1. rewrite connect_register_unfold, Hid. cbv zeta.
    unfold bind.
    match goal with |- context [connect_resume self ?x] => set (w4 := x) end.
    assert (D : deref w4 self = deref w self) by reflexivity.
    destruct (connect_resume_returns w4 self ids) as (w5 & ->);
      [now rewrite D|reflexivity].
Qed.

(** * Further properties of the code *)

(** ** The registry and the objects *)

(** X1: whatever calls are made after the module is loaded, every registered
    object is in the heap and carries the key it is registered under, no key
    is registered twice, and every client typed [mpegts] has a queue. *)
Theorem reached_stores_are_sound calls :
  registry_ok (reached calls) = true /\ clients_ok (reached calls) = true.
Proof. apply reached_ok. Qed.

Lemma LiveStream_keeps_status w c q b :
  let w' := snd (LiveStream c q w) in
  status (deref w' b) = status (deref w b) /\
  detail (deref w' b) = detail (deref w b) /\
  updated_at (deref w' b) = updated_at (deref w b) /\
  clients w' = clients w /\ log w' = log w /\ threads w' = threads w.
Proof.
  cbv zeta.
  destruct (dict_get (livestreams w) (Str.hyphenate c q)) as [a|] eqn:E.
  - rewrite (LiveStream_present _ _ _ _ E). unfold deref. cbn.
    destruct (decide (a = b)) as [<-|N].
    + rewrite list_lookup_alter_eq. now destruct (heap w !! a).
    + now rewrite list_lookup_alter_ne.
  - rewrite (LiveStream_absent _ _ _ E). unfold deref. cbn.
    destruct (decide (b < length (heap w))) as [L|G].
    + now rewrite lookup_app_l.
    + rewrite lookup_app_r by lia. rewrite (lookup_ge_None_2 (heap w)) by lia.
      now destruct (b - length (heap w)) as [|[|n]].
Qed.

(** X2: constructing a stream, new or known, changes the status, the detail
    and the timestamp of no stream, and leaves the client table, the log and
    the started threads alone: [__init__] resets nothing. *)
Theorem construction_keeps_status w c q b :
  let w' := snd (LiveStream c q w) in
  status (deref w' b) = status (deref w b) /\
  detail (deref w' b) = detail (deref w b) /\
  updated_at (deref w' b) = updated_at (deref w b) /\
  clients w' = clients w /\ log w' = log w /\ threads w' = threads w.
Proof. apply LiveStream_keeps_status. Qed.

Lemma LiveStream_returns w c q :
  exists a,
    LiveStream c q w = (Returns a, snd (LiveStream c q w)) /\
    dict_get (livestreams (snd (LiveStream c q w))) (Str.hyphenate c q) = Some a.
Proof.
  destruct (dict_get (livestreams w) (Str.hyphenate c q)) as [a|] eqn:E.
  - exists a. now rewrite (LiveStream_present _ _ _ _ E).
  - exists (length (heap w)). rewrite (LiveStream_absent _ _ _ E). cbn.
    split; [reflexivity|]. now apply dict_get_snoc_absent.
Qed.

(** X3: on a sound store, two constructions whose arguments join to
    different strings return different objects. *)
Theorem different_keys_different_instances w c1 q1 c2 q2 :
  registry_ok w = true ->
  Str.hyphenate c1 q1 <> Str.hyphenate c2 q2 ->
  exists a1 a2 w1 w2,
    LiveStream c1 q1 w = (Returns a1, w1) /\
    LiveStream c2 q2 w1 = (Returns a2, w2) /\
    a1 <> a2.
Proof.
  intros Ok Ne.
  destruct (LiveStream_returns w c1 q1) as (a1 & R1 & G1).
  set (w1 := snd (LiveStream c1 q1 w)) in *.
  destruct (LiveStream_returns w1 c2 q2) as (a2 & R2 & G2).
  set (w2 := snd (LiveStream c2 q2 w1)) in *.
  exists a1, a2, w1, w2. split; [exact R1|]. split; [exact R2|].
  assert (Ok2 : registry_ok w2 = true).
  { apply (registry_ok_after (Construct c2 q2) w1).
    now apply (registry_ok_after (Construct c1 q1) w). }
  pose proof (registered_stays (Construct c2 q2) w1 _ _ G1) as G1'.
  destruct (registry_ok_entry _ _ _ Ok2 G1') as (o1 & H1 & I1).
  destruct (registry_ok_entry _ _ _ Ok2 G2) as (o2 & H2 & I2).
  intros ->. congruence.
Qed.

(** X4: [setStatus] on one stream changes no other object, and neither the
    client table, the registry nor the started threads. *)
Theorem setStatus_touches_one_stream w a s d b :
  a <> b ->
  let w' := snd (setStatus a s d w) in
  deref w' b = deref w b /\ clients w' = clients w /\
  livestreams w' = livestreams w /\ threads w' = threads w.
Proof.
  intros N. cbv zeta. unfold setStatus.
  destruct (_ && _); [now repeat split|].
  unfold bind, get_livestream_id.
  destruct (livestream_id (deref w a)); cbn; [|now repeat split].
  unfold deref. cbn. now rewrite !list_lookup_alter_ne.
Qed.

(** X5: [disconnect], [read] and [write] change no stream object and no
    registry entry, whether they return, raise or wait: in particular
    [disconnect] never changes a status. *)
Theorem client_calls_leave_streams w self client_id stream_data :
  (heap (snd (disconnect self client_id w)) = heap w /\
   livestreams (snd (disconnect self client_id w)) = livestreams w) /\
  (heap (snd (read self client_id w)) = heap w /\
   livestreams (snd (read self client_id w)) = livestreams w) /\
  (heap (snd (write self stream_data w)) = heap w /\
   livestreams (snd (write self stream_data w)) = livestreams w).
Proof.
  split; [|split].
  - exact (client_calls_keep_objects (Disconnect self client_id) w I).
  - exact (client_calls_keep_objects (Read self client_id) w I).
  - exact (client_calls_keep_objects (Write self stream_data) w I).
Qed.

(** ** Client IDs *)

#[local] Instance table_grows_preorder : PreOrder table_grows.
Proof.
  split.
  - intros w. unfold table_grows. lia.
  - intros w1 w2 w3. unfold table_grows. lia.
Qed.

#[local] Instance table_grows_status : StatusFrame table_grows.
Proof. split; [apply _|..]; intros; intros w; unfold table_grows; cbn; lia. Qed.

#[local] Instance table_grows_frame : Frame table_grows.
Proof.
  split; [apply _|..]; intros; intros w; unfold table_grows.
  - cbn. lia.
  - rewrite (frame_construct (R := same_clients) c q w). lia.
Qed.

Lemma write_loop_length data cs : length (snd (write_loop data cs)) = length cs.
Proof.
  induction cs as [|[c|] cs IH]; cbn; [reflexivity| |].
  - destruct (String.eqb (type c) "mpegts").
    + destruct (queue c); [|reflexivity].
      destruct (write_loop data cs). cbn in *. now rewrite IH.
    + destruct (write_loop data cs). cbn in *. now rewrite IH.
  - destruct (write_loop data cs). cbn in *. now rewrite IH.
Qed.

(** No call removes a slot from the client table. *)
Lemma table_grows_after c w : table_grows w (after c w).
Proof.
  destruct c; cbn.
  - exact (frame_construct (R := table_grows) _ _ w).
  - apply (keeps_connect table_grows). intros w'. unfold table_grows. cbn.
    rewrite length_app. lia.
  - unfold table_grows. rewrite disconnect_clients.
    destruct (PyList.position _ _); [rewrite length_insert|]; lia.
  - exact (keeps_getIdlingLiveStream table_grows _ w).
  - unfold table_grows. lia.
  - exact (keeps_setStatus table_grows _ _ _ w).
  - unfold table_grows, read. destruct (0 <? _) eqn:E; [|cbn; lia].
    destruct (PyList.getitem _ _) as [[c|]| |]; try (cbn; lia).
    unfold try_except, queue_get. destruct (queue c) as [[|? ?]|]; cbn; try lia.
    rewrite length_insert. lia.
  - unfold table_grows, write.
    pose proof (write_loop_length stream_data (clients w)) as L.
    destruct (write_loop _ _). cbn in *. lia.
Qed.

Lemma table_grows_after_all calls : forall w, table_grows w (after_all calls w).
Proof.
  induction calls as [|c calls IH]; intros w; cbn; [reflexivity|].
  etransitivity; [apply (table_grows_after c)|apply IH].
Qed.

(** X6: a client ID is the number of slots the table had when [connect] was
    called, and it is never handed out again: whatever calls follow, a later
    [connect], through any stream, returns a larger ID. *)
Theorem client_id_is_never_reused w self type client_id calls self' type' client_id' :
  fst (connect self type w) = Returns client_id ->
  fst (connect self' type' (after_all calls (snd (connect self type w))))
  = Returns client_id' ->
  client_id = Z.of_nat (length (clients w)) /\ (client_id < client_id')%Z.
Proof.
  intros H H'.
  destruct (connect_returned _ _ _ _ H) as (-> & Hc & _).
  destruct (connect_returned _ _ _ _ H') as (-> & _ & _).
  split; [reflexivity|].
  pose proof (table_grows_after_all calls (snd (connect self type w))) as G.
  unfold table_grows in G. rewrite Hc, length_app in G. cbn in G. lia.
Qed.

(** X7: disconnecting the same ID twice leaves the client table as
    disconnecting it once does, whatever the ID, and [disconnect] never
    changes the number of slots. *)
Theorem disconnect_is_idempotent w self client_id :
  let w1 := snd (disconnect self client_id w) in
  clients (snd (disconnect self client_id w1)) = clients w1 /\
  length (clients w1) = length (clients w).
Proof.
  cbv zeta. split; [apply (disconnect_twice w self client_id)|].
  rewrite disconnect_clients.
  destruct (PyList.position _ _); [apply length_insert|reflexivity].
Qed.

(** X8: [disconnect] on a slot that is already tombstoned returns, logs one
    record, and leaves the table and the client count as they were. *)
Theorem disconnect_of_tombstone w self id client_id k :
  livestream_id (deref w self) = Some id ->
  PyList.position (clients w) client_id = Some k ->
  clients w !! k = Some None ->
  let w' := snd (disconnect self client_id w) in
  fst (disconnect self client_id w) = Returns tt /\
  clients w' = clients w /\
  clientsCount self w' = clientsCount self w /\
  log w' = log w ++ [ClientDisconnected id (client_id + 1)%Z].
Proof.
  intros Hid P E. cbv zeta.
  destruct (disconnect_tombstoned w self id client_id k Hid P E) as (A & B & C).
  repeat split; try assumption.
  now rewrite (disconnect_returns _ _ _ _ _ Hid P).
Qed.

(** X9: after [disconnect] of a slot, [read] of the same ID returns [None] at
    once, through any stream, and changes nothing. *)
Theorem read_after_disconnect w self self' id client_id k :
  livestream_id (deref w self) = Some id ->
  PyList.position (clients w) client_id = Some k ->
  let w' := snd (disconnect self client_id w) in
  fst (disconnect self client_id w) = Returns tt /\
  read self' client_id w' = (Returns None, w').
Proof.
  intros Hid P. cbv zeta.
  rewrite (disconnect_returns _ _ _ _ _ Hid P). split; [reflexivity|].
  cbn [snd]. pose proof (position_lt _ _ _ P) as L.
  apply (read_tombstone _ _ _ k).
  - cbn. now rewrite (position_same_length _ (clients w)) by apply length_insert.
  - cbn. now apply list_lookup_insert_eq.
Qed.

Lemma count_clients_enqueue data cs :
  count_clients (map (enqueue data) cs) = count_clients cs.
Proof.
  induction cs as [|c cs IH]; [reflexivity|].
  cbn [map]. rewrite !count_clients_cons, IH. f_equal.
  destruct c as [c|]; cbn; [now destruct (String.eqb _ _)|reflexivity].
Qed.

(** X10: in every store the program reaches, [write] returns: it never raises
    and never waits, and it changes neither the number of slots nor the
    client count. *)
Theorem write_returns_on_reached_stores calls self stream_data :
  let w := reached calls in
  let w' := snd (write self stream_data w) in
  fst (write self stream_data w) = Returns tt /\
  length (clients w') = length (clients w) /\
  clientsCount self w' = clientsCount self w.
Proof.
  cbv zeta. destruct (reached_ok calls) as [_ Ok].
  rewrite (write_ok _ _ _ Ok). cbn [fst snd]. split; [reflexivity|].
  rewrite !clientsCount_eq. cbn [clients set_clients].
  now rewrite length_map, count_clients_enqueue.
Qed.

(** X11: a payload written after [connect('mpegts')] has returned is what the
    first [read] of the new client ID returns; before any write, that [read]
    waits. *)
Theorem first_read_returns_first_write w self self' self'' client_id payload :
  clients_ok w = true ->
  fst (connect self "mpegts" w) = Returns client_id ->
  let w1 := snd (connect self "mpegts" w) in
  let w2 := snd (write self' payload w1) in
  fst (read self'' client_id w1) = Blocks /\
  fst (write self' payload w1) = Returns tt /\
  fst (read self'' client_id w2) = Returns (Some payload).
Proof.
  intros Ok H. cbv zeta.
  destruct (connect_returned _ _ _ _ H) as (-> & Hc & _).
  pose proof (clients_ok_after (Connect self "mpegts") w Ok) as Ok1. cbn in Ok1.
  set (w1 := snd (connect self "mpegts" w)) in *.
  assert (P : PyList.position (clients w1) (Z.of_nat (length (clients w)))
              = Some (length (clients w))).
  { rewrite position_front; [now rewrite Nat2Z.id|].
    rewrite Hc, length_app. cbn. lia. }
  assert (E : clients w1 !! length (clients w) = Some (Some (new_client "mpegts"))).
  { rewrite Hc, lookup_app_r by lia. now rewrite Nat.sub_diag. }
  split; [now rewrite (read_slot _ _ _ _ _ P E)|].
  rewrite (write_ok _ _ _ Ok1). cbn [fst snd]. split; [reflexivity|].
  rewrite (read_slot _ _ _ (length (clients w))
             {| type := "mpegts"; queue := Some [payload] |}).
  - reflexivity.
  - cbn. rewrite (position_same_length _ (clients w1)) by apply length_map.
    exact P.
  - cbn. rewrite list_lookup_fmap, E. reflexivity.
Qed.

(** X12: when [connect] with a type other than [mpegts] has returned, [read]
    of the new client ID raises [AttributeError] and changes nothing: the
    client has no queue and [except TypeError] does not catch the failure. *)
Theorem read_of_client_without_queue_raises w self self' type client_id :
  String.eqb type "mpegts" = false ->
  fst (connect self type w) = Returns client_id ->
  let w1 := snd (connect self type w) in
  read self' client_id w1 = (Raises AttributeError, w1).
Proof.
  intros T H. cbv zeta.
  destruct (connect_returned _ _ _ _ H) as (-> & Hc & _).
  set (w1 := snd (connect self type w)) in *.
  assert (P : PyList.position (clients w1) (Z.of_nat (length (clients w)))
              = Some (length (clients w))).
  { rewrite position_front; [now rewrite Nat2Z.id|].
    rewrite Hc, length_app. cbn. lia. }
  assert (E : clients w1 !! length (clients w) = Some (Some (new_client type))).
  { rewrite Hc, lookup_app_r by lia. now rewrite Nat.sub_diag. }
  rewrite (read_slot _ _ _ _ _ P E). unfold new_client. cbn. now rewrite T.
Qed.

(** X13: the client table is one for all streams: when [connect] through one
    stream has returned, every stream reports one client more. *)
Theorem connect_is_counted_by_every_stream w self other type client_id :
  fst (connect self type w) = Returns client_id ->
  clientsCount other (snd (connect self type w)) = S (clientsCount other w).
Proof. apply connect_counts_for_every_stream. Qed.

(** ** connect, by the status of the stream *)

(** X14: [connect] to a stream that is neither [Offline] nor [Idling]
    returns the index of the new slot, appends the client and logs one
    record; it changes no status, starts no thread and reads no clock. *)
Theorem connect_to_running_stream w self ids type :
  livestream_id (deref w self) = Some ids ->
  status_of (deref w self) <> "Offline"%string ->
  status_of (deref w self) <> "Idling"%string ->
  connect self type w =
  (Returns (Z.of_nat (length (clients w))),
   {| livestreams := livestreams w; heap := heap w;
      clients := clients w ++ [Some (new_client type)];
      log := log w ++ [ClientConnected ids (Z.of_nat (length (clients w)) + 1)%Z];
      threads := threads w; ticks := ticks w |}).
Proof.
  intros Hid Hoff Hidle. unfold connect.
  unfold bind at 1. rewrite (connect_switch_otherwise _ _ Hoff).
  unfold bind at 1. rewrite connect_register_unfold, Hid. cbv zeta.
  unfold bind. now rewrite connect_resume_unless_idling.
Qed.

Lemma connect_resume_when_idling w self :
  status_of (deref w self) = "Idling"%string ->
  connect_resume self w = setStatus self "ONAir" detail_onair w.
Proof.
  intros Hi. unfold connect_resume. unfold bind at 1. unfold getStatus.
  cbv beta iota zeta. cbn [st_status]. now rewrite Hi, String.eqb_refl.
Qed.

(** X15: [connect] to an [Idling] stream returns the index of the new slot
    and puts the stream back [ONAir], with a fresh timestamp; it starts no
    thread and changes no other stream. *)
Theorem connect_resumes_idling_stream w self ids type :
  livestream_id (deref w self) = Some ids ->
  status_of (deref w self) = "Idling"%string ->
  let w' := snd (connect self type w) in
  fst (connect self type w) = Returns (Z.of_nat (length (clients w))) /\
  status_of (deref w' self) = "ONAir"%string /\
  detail_of (deref w' self) = detail_onair /\
  updated_at_of (deref w' self) = time_time (ticks w) /\
  clients w' = clients w ++ [Some (new_client type)] /\
  threads w' = threads w /\
  forall b, b <> self -> deref w' b = deref w b.
Proof.
  intros Hid Hidle.
  assert (Hoff : status_of (deref w self) <> "Offline"%string)
    by (rewrite Hidle; discriminate).
  pose proof (deref_has_id _ _ _ Hid) as Ho.
  set (w4 := {| livestreams := livestreams w; heap := heap w;
                clients := clients w ++ [Some (new_client type)];
                log := log w ++ [ClientConnected ids
                                   (Z.of_nat (length (clients w)) + 1)%Z];
                threads := threads w; ticks := ticks w |}).
  assert (E : connect self type w =
              (Returns (Z.of_nat (length (clients w))),
               status_changed w4 self (deref w self) ids "ONAir" detail_onair)).
  { unfold connect. unfold bind at 1. rewrite (connect_switch_otherwise _ _ Hoff).
    unfold bind at 1. rewrite connect_register_unfold, Hid. cbv zeta.
    unfold Logging_info, set_clients. cbn [snd clients livestreams heap log
                                            threads ticks]. fold w4.
    unfold bind. rewrite (connect_resume_when_idling w4 self Hidle).
    rewrite (setStatus_differs w4 self (deref w self) ids "ONAir" detail_onair);
      [reflexivity|exact Ho|exact Hid|].
    rewrite Hidle. intros [? _]. discriminate. }
  cbv zeta. rewrite E. cbn [fst snd]. split; [reflexivity|].
  assert (L : self < length (heap w4)) by (eapply lookup_lt_Some; exact Ho).
  rewrite (deref_status_changed w4 self _ _ _ _ self L).
  destruct (decide (self = self)); [|congruence].
  do 5 (split; [reflexivity|]).
  intros b Nb. rewrite (deref_status_changed w4 self _ _ _ _ b L).
  destruct (decide (self = b)); [congruence|reflexivity].
Qed.

#[local] Instance same_threads_preorder : PreOrder same_threads.
Proof.
  split.
  - now intros w.
  - intros w1 w2 w3. unfold same_threads. congruence.
Qed.

#[local] Instance same_threads_status : StatusFrame same_threads.
Proof. split; [apply _|..]; intros; intros w; reflexivity. Qed.

Lemma same_threads_construct c q : keeps same_threads (LiveStream c q).
Proof. intros w. unfold same_threads. apply (LiveStream_keeps_status w c q 0). Qed.

Lemma keeps_getIdlingLiveStream_by R `{!PreOrder R} self :
  (forall c q, keeps R (LiveStream c q)) -> keeps R (getIdlingLiveStream self).
Proof.
  intros Hc w. unfold getIdlingLiveStream.
  generalize (length (livestreams w)) as size0.
  generalize (@nil nat) as result.
  generalize (dict_values (livestreams w)) as values. revert w.
  intros w values. revert w.
  induction values as [|l values IH]; intros w result size0; cbn.
  - destruct (negb _); cbn; reflexivity.
  - destruct (negb _); [cbn; reflexivity|].
    destruct (String.eqb _ _); [|apply IH].
    revert w. apply keeps_bind; [apply _|apply keeps_get_livestream_id; apply _|].
    intros id. destruct (Str.split _ id) as [|c [|q [|? ?]]];
      try (apply keeps_raise; apply _).
    apply keeps_bind; [apply _|apply Hc|]. intros a w. apply IH.
Qed.

Lemma connect_switch_threads w self :
  fst (connect_switch self w) = Returns tt ->
  threads (snd (connect_switch self w)) =
  if String.eqb (status_of (deref w self)) "Offline"
  then threads w ++ [self] else threads w.
Proof.
  destruct (String.eqb_spec (status_of (deref w self)) "Offline") as [Hoff|Hon].
  - rewrite (connect_switch_when_offline _ _ Hoff). unfold bind.
    pose proof (keeps_getIdlingLiveStream_by same_threads self
                  same_threads_construct w) as T1.
    destruct (getIdlingLiveStream self w) as [[l| |] w1]; cbn in T1;
      try (cbn; discriminate).
    assert (T2 : same_threads w1
                   (snd (match l with
                         | first :: _ => setStatus first "Offline" detail_released
                         | [] => ret tt
                         end w1))).
    { destruct l; [reflexivity|apply keeps_setStatus; apply _]. }
    destruct (match l with
              | first :: _ => setStatus first "Offline" detail_released
              | [] => ret tt
              end w1) as [[[]| |] w2]; cbn in T2; try (cbn; discriminate).
    pose proof (keeps_setStatus same_threads self "Standby" detail_standby w2)
      as T3.
    destruct (setStatus self "Standby" detail_standby w2) as [[[]| |] w3];
      cbn in T3; try (cbn; discriminate).
    cbn. intros _. unfold same_threads in *. congruence.
  - now rewrite (connect_switch_otherwise _ _ Hon).
Qed.

(** X16: when [connect] has returned, it has started one encoder thread, for
    the stream itself, if the stream was [Offline], and none otherwise. *)
Theorem connect_starts_encoder_iff_offline w self type client_id :
  fst (connect self type w) = Returns client_id ->
  threads (snd (connect self type w)) =
  if String.eqb (status_of (deref w self)) "Offline"
  then threads w ++ [self] else threads w.
Proof.
  set (tail := bind (connect_register self type)
                 (fun client_id =>
                    bind (connect_resume self) (fun _ => ret client_id))).
  assert (E : connect self type w =
              match connect_switch self w with
              | (Returns _, w0) => tail w0
              | (Raises e, w0) => (Raises e, w0)
              | (Blocks, w0) => (Blocks, w0)
              end) by reflexivity.
  assert (T : keeps same_threads tail).
  { apply keeps_bind; [apply _| |intros cid].
    - apply keeps_connect_register; [apply _|]. now intros w'.
    - apply keeps_bind; [apply _|apply keeps_connect_resume; apply _|intros _].
      apply keeps_ret; apply _. }
  rewrite E. pose proof (connect_switch_threads w self) as T0.
  destruct (connect_switch self w) as [[[]| |] w0]; try (cbn; discriminate).
  cbn [fst snd] in T0. rewrite <- (T0 eq_refl). intros _. exact (T w0).
Qed.

(** X17: [connect] to an [Offline] stream, on a sound store whose idling keys
    have one hyphen, returns the index of the new slot and leaves the stream
    in [Standby]; the first idling stream of the registry, if any, is
    [Offline] with the detail of a released tuner, and status, detail and
    timestamp of every other stream, idling or not, are as before. *)
Theorem offline_connect_reclaims_first_idling w self ids type :
  registry_ok w = true -> idling_keys_ok w = true ->
  livestream_id (deref w self) = Some ids ->
  status_of (deref w self) = "Offline"%string ->
  let w' := snd (connect self type w) in
  fst (connect self type w) = Returns (Z.of_nat (length (clients w))) /\
  status_of (deref w' self) = "Standby"%string /\
  match idling_streams w with
  | first :: _ =>
      status_of (deref w' first) = "Offline"%string /\
      detail_of (deref w' first) = detail_released
  | [] => True
  end /\
  forall a, a <> self -> head (idling_streams w) <> Some a ->
    status_of (deref w' a) = status_of (deref w a) /\
    detail_of (deref w' a) = detail_of (deref w a) /\
    updated_at_of (deref w' a) = updated_at_of (deref w a).
Proof. apply connect_offline_evicts_first_idling. Qed.

(** ** getIdlingLiveStream *)

(** X18: on a sound store whose idling keys have one hyphen,
    [getIdlingLiveStream] returns the idling streams in the order of the
    registry, and leaves registry, client table, log, threads, clock and the
    status, detail, timestamp and key of every stream as they were. *)
Theorem idling_streams_in_registry_order w self :
  registry_ok w = true -> idling_keys_ok w = true ->
  fst (getIdlingLiveStream self w) = Returns (idling_streams w) /\
  same_but_identity w (snd (getIdlingLiveStream self w)).
Proof.
  intros Ok Keys.
  destruct (getIdlingLiveStream_returns w self Ok Keys) as (w' & -> & Same).
  now split.
Qed.

Lemma forallb_false {X} (f : X -> bool) l :
  forallb f l = false -> exists x, In x l /\ f x = false.
Proof.
  induction l as [|y l IH]; cbn; [discriminate|].
  destruct (f y) eqn:E; cbn.
  - intros H. destruct (IH H) as (x & Hin & Hx). eauto.
  - intros _. eauto.
Qed.

Lemma entry_id w k a :
  registry_ok w = true -> In (k, a) (livestreams w) ->
  livestream_id (deref w a) = Some k.
Proof.
  unfold registry_ok. intros Ok Hin. apply andb_true_iff in Ok as [Entries _].
  rewrite forallb_forall in Entries. specialize (Entries _ Hin).
  unfold entry_ok in Entries. cbn in Entries.
  destruct (livestream_id (deref w a)) as [l|]; [|discriminate].
  apply String.eqb_eq in Entries. now subst.
Qed.

Lemma entry_rebuildable_or_not w k a :
  registry_ok w = true -> In (k, a) (livestreams w) ->
  if splits_in_two k then rebuildable w a else unsplittable w a.
Proof.
  intros Ok Hin. pose proof (entry_id _ _ _ Ok Hin) as Hid.
  destruct (splits_in_two k) eqn:Es.
  - unfold splits_in_two in Es.
    destruct (Str.split "-" k) as [|c [|q [|? ?]]] eqn:E; try discriminate.
    pose proof (split_two _ _ _ E) as Ek. exists c, q. rewrite Ek.
    repeat split; auto. apply dict_get_In; [|exact Hin].
    unfold registry_ok in Ok. now apply andb_true_iff in Ok as [_ ?].
  - now exists k.
Qed.

Lemma not_both w a : rebuildable w a -> unsplittable w a -> False.
Proof.
  intros (c & q & Hid & Hs & _) (k & Hid' & Hk).
  rewrite Hid in Hid'. injection Hid' as <-.
  unfold splits_in_two in Hk. now rewrite Hs in Hk.
Qed.

Lemma unsplittable_same w w' a :
  same_but_identity w w' -> unsplittable w a -> unsplittable w' a.
Proof.
  intros (_ & _ & _ & _ & _ & _ & G) (k & Hid & Hk).
  destruct (G a) as (_ & _ & _ & I). exists k. now rewrite I.
Qed.

Lemma getIdlingLiveStream_loop_raises size0 values : forall result w,
  length (livestreams w) = size0 ->
  (forall a, In a values -> is_idling w a = true ->
             rebuildable w a \/ unsplittable w a) ->
  (exists a, In a values /\ is_idling w a = true /\ unsplittable w a) ->
  exists w',
    getIdlingLiveStream_loop size0 values result w = (Raises ValueError, w') /\
    same_but_identity w w'.
Proof.
  induction values as [|l values IH]; intros result w Hsize Hre (b & Hb & Ib & Ub).
  - destruct Hb.
  - cbn. rewrite Hsize, Nat.eqb_refl. cbn. fold (is_idling w l).
    destruct (is_idling w l) eqn:Idle.
    + destruct (Hre l (or_introl eq_refl) Idle) as [Reb|(k & Hid & Hk)].
      * pose proof Reb as (c & q & Hid & Hs & Hg).
        unfold bind at 1. unfold get_livestream_id. rewrite Hid, Hs.
        unfold bind. rewrite (LiveStream_present _ _ _ _ Hg).
        pose proof (rebuild_same_but_identity w l c q Hid) as Same.
        set (w1 := set_heap _ w) in *.
        destruct (IH (result ++ [l]) w1) as (w' & R & Same').
        -- destruct Same as (L & _). now rewrite L.
        -- intros a Ha Ia. rewrite (is_idling_same w w1) in Ia by exact Same.
           destruct (Hre a (or_intror Ha) Ia) as [?|?];
             [left; now apply (rebuildable_same w)
             |right; now apply (unsplittable_same w)].
        -- exists b. destruct Hb as [<-|Hb]; [destruct (not_both _ _ Reb Ub)|].
           rewrite (is_idling_same w w1) by exact Same.
           repeat split; [exact Hb|exact Ib|now apply (unsplittable_same w)].
        -- exists w'. split; [exact R|now transitivity w1].
      * unfold bind, get_livestream_id. rewrite Hid. unfold splits_in_two in Hk.
        exists w. split; [|reflexivity].
        destruct (Str.split "-" k) as [|c [|q [|? ?]]];
          try reflexivity; discriminate.
    + destruct (IH result w Hsize) as (w' & R & Same).
      * intros a Ha. apply Hre. now right.
      * exists b. destruct Hb as [<-|Hb]; [congruence|]. now repeat split.
      * now exists w'.
Qed.

(** X19: on a sound store where the key of some idling stream does not have
    exactly one hyphen, [getIdlingLiveStream] raises [ValueError], and so
    does [connect] to an [Offline] stream; registry, client table, log,
    threads, clock and the status, detail and timestamp of every stream stay
    as they were: nothing is reclaimed and no client is registered. *)
Theorem offline_connect_raises_on_unsplittable_key w self type :
  registry_ok w = true -> idling_keys_ok w = false ->
  status_of (deref w self) = "Offline"%string ->
  fst (getIdlingLiveStream self w) = Raises ValueError /\
  fst (connect self type w) = Raises ValueError /\
  same_but_identity w (snd (connect self type w)).
Proof.
  intros Ok Keys Hoff.
  destruct (getIdlingLiveStream_loop_raises (length (livestreams w))
              (dict_values (livestreams w)) [] w eq_refl) as (w' & R & Same).
  - intros a Hin Idle. unfold dict_values in Hin.
    apply in_map_iff in Hin as ([k a'] & Ea & Hin). cbn in Ea. subst a'.
    pose proof (entry_rebuildable_or_not _ _ _ Ok Hin) as H.
    destruct (splits_in_two k); [now left|now right].
  - unfold idling_keys_ok in Keys.
    apply forallb_false in Keys as ([k a] & Hin & Hf). cbn in Hf.
    destruct (is_idling w a) eqn:Idle; [|discriminate]. cbn in Hf.
    exists a. split; [|split; [exact Idle|]].
    + unfold dict_values. apply in_map_iff. now exists (k, a).
    + pose proof (entry_rebuildable_or_not _ _ _ Ok Hin) as H.
      now rewrite Hf in H.
  - assert (G : getIdlingLiveStream self w = (Raises ValueError, w'))
      by exact R.
    rewrite G. split; [reflexivity|].
    assert (E : connect self type w = (Raises ValueError, w')).
    { unfold connect. unfold bind at 1.
      rewrite (connect_switch_when_offline _ _ Hoff). unfold bind at 1.
      now rewrite G. }
    rewrite E. now split.
Qed.

(** ** Keys *)

Lemma split_no_hyphen s : no_hyphen s = true -> Str.split "-" s = [s].
Proof.
  induction s as [|ch s IH]; cbn; [reflexivity|].
  destruct (Ascii.eqb ch "-"); cbn; [discriminate|].
  intros H. now rewrite (IH H).
Qed.

(** X20: a key joined from a channel and a quality without hyphens splits
    back into exactly these two, which is what [getIdlingLiveStream] needs to
    find the stream again. *)
Theorem hyphen_free_key_splits_back c q :
  no_hyphen c = true -> no_hyphen q = true ->
  Str.split "-" (Str.hyphenate c q) = [c; q] /\
  splits_in_two (Str.hyphenate c q) = true.
Proof.
  intros Hc Hq.
  assert (E : Str.split "-" (Str.hyphenate c q) = [c; q]).
  { unfold Str.hyphenate. induction c as [|ch c IH]; cbn.
    - now rewrite (split_no_hyphen _ Hq).
    - cbn in Hc. destruct (Ascii.eqb ch "-"); cbn in Hc; [discriminate|].
      now rewrite (IH Hc). }
  split; [exact E|]. unfold splits_in_two. now rewrite E.
Qed.

End Model.

(** * Concrete runs *)

Local Open Scope string_scope.

(** C1, at a concrete input: three constructions of [gr011-1080p] on the
    store as booted return one object and allocate one. *)
Lemma one_instance_per_key_witness :
  exists a w',
    construct_all
      [("gr011", "1080p"); ("gr011", "1080p"); ("gr011", "1080p")]
      (boot (Time := nat))
    = (Returns [a; a; a], w') /\
    length (heap w') = 1.
Proof.
  destruct (one_instance_per_key counting_clock boot "gr011-1080p"
              ("gr011", "1080p") [("gr011", "1080p"); ("gr011", "1080p")])
    as [(a & w' & R & _ & H & _) _].
  - repeat constructor.
  - exists a, w'. split; [exact R | exact H].
Defined.

(** C2: two streams with different keys; a client connects to the first and
    the second reports one client more; a payload written to the second
    stream is what the first stream's client reads. *)
Theorem connect_changes_count_of_other_stream :
  let w := two_streams (Time := nat) in
  let w1 := snd (connect counting_clock 0 "mpegts" w) in
  let w2 := snd (write 1 [x01%byte] w1) in
  dict_get (livestreams w) "gr011-1080p" = Some 0 /\
  dict_get (livestreams w) "bs101-1080p" = Some 1 /\
  clientsCount counting_clock 1 w = 0 /\
  fst (connect counting_clock 0 "mpegts" w) = Returns 0%Z /\
  clientsCount counting_clock 1 w1 = 1 /\
  fst (read 0 0 w2) = Returns (Some [x01%byte]).
Proof. vm_compute. repeat split. Qed.

(** C3: the first stream, whose channel identifier has a hyphen, is idling;
    [connect] on the second, offline stream raises [ValueError]: no stream is
    set to [Offline], the connecting stream is not set to [Standby] and no
    client is registered. *)
Theorem connect_raises_when_idling_key_has_hyphen :
  let w := hyphen_idling counting_clock in
  let w1 := snd (connect counting_clock 1 "mpegts" w) in
  status_of (deref w 0) = "Idling" /\
  status_of (deref w 1) = "Offline" /\
  fst (connect counting_clock 1 "mpegts" w) = Raises ValueError /\
  status_of (deref w1 0) = "Idling" /\
  status_of (deref w1 1) = "Offline" /\
  clients w1 = [].
Proof. vm_compute. repeat split. Qed.

(** C4: [read] on the slot of an [hls] client raises [AttributeError], and
    [read] with an ID past the end of a non-empty table raises
    [IndexError]. *)
Theorem read_raises_without_queue_and_out_of_range :
  fst (read 0 0 (one_client counting_clock "hls")) = Raises AttributeError /\
  fst (read 0 1 (one_client counting_clock "mpegts")) = Raises IndexError.
Proof. vm_compute. split; reflexivity. Qed.

(** C5: [disconnect] with an ID past the end of a non-empty table raises
    [IndexError]. *)
Theorem disconnect_raises_out_of_range :
  length (clients (one_client counting_clock "mpegts")) = 1 /\
  fst (disconnect 0 1 (one_client counting_clock "mpegts")) = Raises IndexError.
Proof. vm_compute. split; reflexivity. Qed.

(** C6, at a concrete input: a fresh stream is set to [Idling]. *)
Lemma setStatus_noop_iff_unchanged_witness :
  let w := two_streams (Time := nat) in
  setStatus counting_clock 0 "Offline" class_detail w = (Returns tt, w) /\
  status_of (deref (snd (setStatus counting_clock 0 "Idling" "idle" w)) 0)
  = "Idling".
Proof.
  cbv zeta. split.
  - refine (proj1 (setStatus_noop_iff_unchanged counting_clock two_streams 0
                     _ "gr011-1080p" "Offline" class_detail eq_refl eq_refl) _).
    split; reflexivity.
  - refine (proj1 (proj2 (proj1 (proj2
              (setStatus_noop_iff_unchanged counting_clock two_streams 0
                 _ "gr011-1080p" "Idling" "idle" eq_refl eq_refl)) _))).
    intros [H _]. vm_compute in H. discriminate H.
Defined.

(** C7, at a concrete input: two payloads written to a table with one
    [mpegts] and one [hls] client are read from slot 0 in the order
    written. *)
Lemma write_broadcasts_in_order_witness :
  let w := push_and_pull counting_clock in
  clients_ok w = true /\
  fst (bind (write_all 0 [[x01%byte]; [x02%byte]])
         (fun _ => read_n 0 0 2) w)
  = Returns [Some [x01%byte]; Some [x02%byte]].
Proof.
  cbv zeta. split; [reflexivity|].
  exact (proj2 (write_broadcasts_in_order (push_and_pull counting_clock) 0
                  eq_refl)
           0%Z 0 {| type := "mpegts"; queue := Some [] |} []
           [[x01%byte]; [x02%byte]] eq_refl eq_refl eq_refl eq_refl).
Defined.

(** C8, at a concrete input: the first client of a fresh stream. *)
Lemma connect_disconnect_net_zero_witness :
  let w := two_streams (Time := nat) in
  let w1 := snd (connect counting_clock 0 "mpegts" w) in
  fst (connect counting_clock 0 "mpegts" w) = Returns 0%Z /\
  fst (disconnect 0 0 w1) = Returns tt /\
  clientsCount counting_clock 0 (snd (disconnect 0 0 w1))
  = clientsCount counting_clock 0 w.
Proof.
  cbv zeta. split; [reflexivity|].
  exact (connect_disconnect_net_zero counting_clock two_streams 0 "mpegts" 0%Z
           eq_refl).
Defined.

(** C9, at a concrete input: [("gr-011", "1080p")] and [("gr", "011-1080p")]
    both join to [gr-011-1080p]. *)
Lemma same_joined_string_same_instance_witness :
  Str.hyphenate "gr-011" "1080p" = Str.hyphenate "gr" "011-1080p" /\
  exists a w1 w2,
    LiveStream "gr-011" "1080p" (boot (Time := nat)) = (Returns a, w1) /\
    LiveStream "gr" "011-1080p" w1 = (Returns a, w2) /\
    channel_id (deref w2 a) = Some "gr" /\
    quality (deref w2 a) = Some "011-1080p".
Proof.
  split; [reflexivity|].
  destruct (same_joined_string_same_instance (Time := nat) boot
              "gr-011" "1080p" "gr" "011-1080p" eq_refl eq_refl)
    as (a & w1 & w2 & R1 & R2 & _ & _ & _ & _ & Hc & Hq).
  exists a, w1, w2. repeat split; assumption.
Defined.

(** C10, as stated, fails: on a table of one slot the client ID [-2] denotes
    no slot; [read] and [disconnect] raise [IndexError] and the table is left
    as it was. *)
Lemma negative_client_id_below_table_raises :
  let w := one_client counting_clock "mpegts" in
  length (clients w) = 1 /\
  fst (read 0 (-2) w) = Raises IndexError /\
  fst (disconnect 0 (-2) w) = Raises IndexError /\
  clients (snd (disconnect 0 (-2) w)) = clients w.
Proof. vm_compute. repeat split. Qed.

(** C10 amended, at a concrete input: [disconnect(-1)] on a table of one
    slot. *)
Lemma negative_client_id_counts_from_end_witness :
  let w := one_client counting_clock "mpegts" in
  (- Z.of_nat (length (clients w)) <= -1 < 0)%Z /\
  clients (snd (disconnect 0 (-1) w)) = [None].
Proof.
  cbv zeta. split; [vm_compute; split; [discriminate | reflexivity]|].
  destruct (negative_client_id_counts_from_end counting_clock
              (one_client counting_clock "mpegts") 0 "gr011-1080p" (-1)%Z
              eq_refl)
    as (_ & _ & D & _).
  - vm_compute. split; [discriminate | reflexivity].
  - rewrite D. reflexivity.
Defined.

(** ** Further properties, at concrete inputs *)

(** X3, at a concrete input: [gr011-1080p] and [bs101-1080p]. *)
Lemma different_keys_different_instances_witness :
  Str.hyphenate "gr011" "1080p" <> Str.hyphenate "bs101" "1080p" /\
  exists a1 a2 w1 w2,
    LiveStream "gr011" "1080p" (boot (Time := nat)) = (Returns a1, w1) /\
    LiveStream "bs101" "1080p" w1 = (Returns a2, w2) /\
    a1 <> a2.
Proof.
  assert (N : Str.hyphenate "gr011" "1080p" <> Str.hyphenate "bs101" "1080p")
    by (vm_compute; discriminate).
  split; [exact N|].
  exact (different_keys_different_instances counting_clock boot
           "gr011" "1080p" "bs101" "1080p" eq_refl N).
Defined.

(** X4, at a concrete input: the first of two streams is set to [Idling]. *)
Lemma setStatus_touches_one_stream_witness :
  0 <> 1 /\
  deref (snd (setStatus counting_clock 0 "Idling" "idle" two_streams)) 1
  = deref two_streams 1.
Proof.
  assert (N : 0 <> 1) by discriminate. split; [exact N|].
  exact (proj1 (setStatus_touches_one_stream counting_clock two_streams
                  0 "Idling" "idle" 1 N)).
Defined.

(** X6, at a concrete input: a client connects and disconnects, then another
    one connects through the other stream. *)
Lemma client_id_is_never_reused_witness :
  let w := two_streams (Time := nat) in
  let w1 := snd (connect counting_clock 0 "mpegts" w) in
  fst (connect counting_clock 0 "mpegts" w) = Returns 0%Z /\
  fst (connect counting_clock 1 "hls"
         (after_all counting_clock [Disconnect 0 0] w1)) = Returns 1%Z /\
  (0 < 1)%Z.
Proof.
  cbv zeta. split; [reflexivity|]. split; [reflexivity|].
  exact (proj2 (client_id_is_never_reused counting_clock two_streams
                  0 "mpegts" 0%Z [Disconnect 0 0] 1 "hls" 1%Z
                  eq_refl eq_refl)).
Defined.

(** X8, at a concrete input: the only slot is tombstoned already. *)
Lemma disconnect_of_tombstone_witness :
  let w := one_tombstone counting_clock in
  clients w = [None] /\
  fst (disconnect 0 0 w) = Returns tt /\
  clients (snd (disconnect 0 0 w)) = clients w.
Proof.
  cbv zeta. split; [reflexivity|].
  destruct (disconnect_of_tombstone counting_clock
              (one_tombstone counting_clock) 0 "gr011-1080p" 0%Z 0
              eq_refl eq_refl eq_refl) as (A & B & _).
  split; [exact A | exact B].
Defined.

(** X9, at a concrete input: the only client disconnects, then reads. *)
Lemma read_after_disconnect_witness :
  let w := one_client counting_clock "mpegts" in
  fst (read 0 0 (snd (disconnect 0 0 w))) = Returns None.
Proof.
  cbv zeta.
  destruct (read_after_disconnect (one_client counting_clock "mpegts")
              0 0 "gr011-1080p" 0%Z 0 eq_refl eq_refl) as (_ & R).
  rewrite R. reflexivity.
Defined.

(** X11, at a concrete input: one byte written to a new client. *)
Lemma first_read_returns_first_write_witness :
  let w := two_streams (Time := nat) in
  let w1 := snd (connect counting_clock 0 "mpegts" w) in
  clients_ok w = true /\
  fst (connect counting_clock 0 "mpegts" w) = Returns 0%Z /\
  fst (read 0 0 (snd (write 0 [x2a%byte] w1))) = Returns (Some [x2a%byte]).
Proof.
  cbv zeta. split; [reflexivity|]. split; [reflexivity|].
  exact (proj2 (proj2 (first_read_returns_first_write counting_clock
                         two_streams 0 0 0 0%Z [x2a%byte] eq_refl eq_refl))).
Defined.

(** X12, at a concrete input: an [hls] client reads. *)
Lemma read_of_client_without_queue_raises_witness :
  let w := two_streams (Time := nat) in
  String.eqb "hls" "mpegts" = false /\
  fst (connect counting_clock 0 "hls" w) = Returns 0%Z /\
  fst (read 0 0 (snd (connect counting_clock 0 "hls" w))) = Raises AttributeError.
Proof.
  cbv zeta. split; [reflexivity|]. split; [reflexivity|].
  rewrite (read_of_client_without_queue_raises counting_clock two_streams
             0 0 "hls" 0%Z eq_refl eq_refl).
  reflexivity.
Defined.

(** X13, at a concrete input: the second stream counts the client of the
    first. *)
Lemma connect_is_counted_by_every_stream_witness :
  let w := two_streams (Time := nat) in
  fst (connect counting_clock 0 "mpegts" w) = Returns 0%Z /\
  clientsCount counting_clock 1 (snd (connect counting_clock 0 "mpegts" w))
  = S (clientsCount counting_clock 1 w).
Proof.
  cbv zeta. split; [reflexivity|].
  exact (connect_is_counted_by_every_stream counting_clock two_streams
           0 1 "mpegts" 0%Z eq_refl).
Defined.

(** X14, at a concrete input: a second client connects to a stream in
    [Standby]. *)
Lemma connect_to_running_stream_witness :
  let w := one_client counting_clock "mpegts" in
  status_of (deref w 0) = "Standby" /\
  fst (connect counting_clock 0 "hls" w) = Returns 1%Z /\
  heap (snd (connect counting_clock 0 "hls" w)) = heap w.
Proof.
  cbv zeta. split; [reflexivity|].
  assert (Hoff : status_of (deref (one_client counting_clock "mpegts") 0)
                 <> "Offline") by (vm_compute; discriminate).
  assert (Hidle : status_of (deref (one_client counting_clock "mpegts") 0)
                  <> "Idling") by (vm_compute; discriminate).
  rewrite (connect_to_running_stream counting_clock
             (one_client counting_clock "mpegts") 0 "gr011-1080p" "hls"
             eq_refl Hoff Hidle).
  split; reflexivity.
Defined.

(** X15, at a concrete input: a client connects to an idling stream. *)
Lemma connect_resumes_idling_stream_witness :
  let w := two_idling counting_clock in
  status_of (deref w 0) = "Idling" /\
  status_of (deref (snd (connect counting_clock 0 "mpegts" w)) 0) = "ONAir".
Proof.
  cbv zeta. split; [reflexivity|].
  exact (proj1 (proj2 (connect_resumes_idling_stream counting_clock
                         (two_idling counting_clock) 0 "gr011-1080p" "mpegts"
                         eq_refl eq_refl))).
Defined.

(** X16, at a concrete input: the first client of an offline stream. *)
Lemma connect_starts_encoder_iff_offline_witness :
  let w := two_streams (Time := nat) in
  fst (connect counting_clock 1 "mpegts" w) = Returns 0%Z /\
  threads (snd (connect counting_clock 1 "mpegts" w)) = [1].
Proof.
  cbv zeta. split; [reflexivity|].
  rewrite (connect_starts_encoder_iff_offline counting_clock two_streams
             1 "mpegts" 0%Z eq_refl).
  reflexivity.
Defined.

(** X17, at a concrete input: two streams are idling and a client connects
    to the third; the first is reclaimed. *)
Lemma offline_connect_reclaims_first_idling_witness :
  let w := two_idling counting_clock in
  let w' := snd (connect counting_clock 2 "mpegts" w) in
  registry_ok w = true /\ idling_keys_ok w = true /\
  idling_streams w = [0; 1] /\
  status_of (deref w' 2) = "Standby" /\
  status_of (deref w' 0) = "Offline".
Proof.
  cbv zeta. do 3 (split; [reflexivity|]).
  destruct (offline_connect_reclaims_first_idling counting_clock
              (two_idling counting_clock) 2 "cs201-720p" "mpegts"
              eq_refl eq_refl eq_refl eq_refl) as (_ & S & V & _).
  split; [exact S|]. exact (proj1 V).
Defined.

(** X18, at a concrete input: two idling streams and an offline one. *)
Lemma idling_streams_in_registry_order_witness :
  let w := two_idling counting_clock in
  registry_ok w = true /\ idling_keys_ok w = true /\
  fst (getIdlingLiveStream 2 w) = Returns [0; 1].
Proof.
  cbv zeta. do 2 (split; [reflexivity|]).
  exact (proj1 (idling_streams_in_registry_order counting_clock
                  (two_idling counting_clock) 2 eq_refl eq_refl)).
Defined.

(** X19, at a concrete input: the idling stream has the key
    [gr-011-1080p]. *)
Lemma offline_connect_raises_on_unsplittable_key_witness :
  let w := hyphen_idling counting_clock in
  registry_ok w = true /\ idling_keys_ok w = false /\
  fst (connect counting_clock 1 "mpegts" w) = Raises ValueError.
Proof.
  cbv zeta. do 2 (split; [reflexivity|]).
  exact (proj1 (proj2 (offline_connect_raises_on_unsplittable_key
                         counting_clock (hyphen_idling counting_clock)
                         1 "mpegts" eq_refl eq_refl eq_refl))).
Defined.

(** X20, at a concrete input: [gr011] and [1080p]. *)
Lemma hyphen_free_key_splits_back_witness :
  no_hyphen "gr011" = true /\ no_hyphen "1080p" = true /\
  Str.split "-" (Str.hyphenate "gr011" "1080p") = ["gr011"; "1080p"].
Proof.
  do 2 (split; [reflexivity|]).
  exact (proj1 (hyphen_free_key_splits_back "gr011" "1080p" eq_refl eq_refl)).
Defined.
